(** * transcribe.py: an offline audio-to-text pipeline

    A shallow embedding of [src/transcribe.py].  The script prompts for an
    audio path, opens it with the [wave] module, validates the format, feeds
    the samples to a Vosk recognizer in fixed-size reads, and saves the
    collected results as JSON and as plain text.

    The script is effectful (console, file system, [exit], exceptions), so the
    embedding threads a [world] through a small state-and-outcome monad.  The
    libraries the script calls ([wave], [os.path], [open], [vosk], [rich]) are
    the environment: the file system and the console are fields of the world,
    the recognizer and the progress clock are interfaces ([Vosk], [Rich]). *)

From Stdlib Require Import ZArith QArith String Ascii List Lia.
From stdpp Require Import base strings gmap list.
Close Scope Q_scope.
Open Scope string_scope.
Open Scope list_scope.
Open Scope Z_scope.

(** ** Python values *)

Set Warnings "-register-all".

(** What [json.loads] builds; a number keeps its literal.  A hypothesis
    record is a Python [dict] with string keys, a [gmap string jval]. *)
Inductive jval : Type :=
| JNull
| JBool (b : bool)
| JNum (lit : string)
| JStr (s : string)
| JArr (items : list jval)
| JObj (fields : list (string * jval)).

Inductive exn : Type :=
| FileNotFoundError (p : string)
| IsADirectoryError (p : string)
| WaveError (msg : string)
| EOFError
| TypeError (msg : string)
| EngineError (msg : string).

(** [str(e)], as interpolated by the f-strings of the script. *)
Definition str_exn (e : exn) : string :=
  match e with
  | FileNotFoundError p => "[Errno 2] No such file or directory: " +:+ p
  | IsADirectoryError p => "[Errno 21] Is a directory: " +:+ p
  | WaveError msg => msg
  | EOFError => ""
  | TypeError msg => msg
  | EngineError msg => msg
  end.

(** ** The file system *)

(** The parameters and the sample data of a waveform container: what the
    getters of an open [Wave_read] answer, and the bytes of its data chunk. *)
Record wav : Type := mk_wav {
  nchannels : Z;
  sampwidth : Z;
  framerate : Z;
  nframes : Z;
  pcm : list Byte.byte
}.

Inductive content : Type :=
| Raw (s : string)                       (* characters written by [f.write] *)
| Wave (w : wav)                         (* a container [wave.open] parses *)
| JsonDump (doc : list (gmap string jval)).
    (* the text [json.dump(doc, f, ensure_ascii=False, indent=4)] writes *)

Inductive node : Type :=
| Dir
| File (c : content).

(** ** The console *)

Inductive color : Type :=
| WHITE | MAGENTA | RED | BLUE | GREEN | CYAN | YELLOW
| LIGHTBLUE_EX | LIGHTMAGENTA_EX | LIGHTCYAN_EX | LIGHTRED_EX | LIGHTGREEN_EX.

(** A cell of the metrics table, before formatting. *)
Inductive cell : Type :=
| Count (n : Z)          (* f"{n:,}" *)
| Rate (q : Q)           (* f"{q:,.2f} frames/s" *)
| Seconds (q : Q).       (* f"{q:.2f} seconds" *)

(** A task of [rich.progress.Progress]. *)
Record Task : Type := mk_Task {
  total : Z;
  completed : Z;
  updates : nat
}.

(** Everything the script does that can be observed from outside, in order. *)
Inductive event : Type :=
| EvPrint (c : color) (s : string)
| EvInput (prompt : string)
| EvWaveOpen (p : string)
| EvReadFrames (n : Z) (data : list Byte.byte)
| EvWaveClose
| EvOpenW (p : string)
| EvLiveTable (rows : list (string * cell))
| EvLiveProgress (t : Task).

Record world : Type := mk_world {
  fs : gmap string node;
  stdin : list string;
  trace : list event
}.

Definition log (e : event) (w : world) : world :=
  {| fs := fs w; stdin := stdin w; trace := trace w ++ [e] |}.

Definition set_fs (f : gmap string node) (w : world) : world :=
  {| fs := f; stdin := stdin w; trace := trace w |}.

Definition set_stdin (l : list string) (w : world) : world :=
  {| fs := fs w; stdin := l; trace := trace w |}.

(** ** Outcomes and the monad *)

(** How a computation ends: it returns, an exception propagates, [exit(code)]
    unwinds ([SystemExit] is not an [Exception]), or the model ran out of
    fuel ([Timeout], which no run of the script reaches). *)
Inductive outcome (A : Type) : Type :=
| Ret (a : A)
| Raise (e : exn)
| Exit (code : Z)
| Timeout.
Arguments Ret {A} a.
Arguments Raise {A} e.
Arguments Exit {A} code.
Arguments Timeout {A}.

Definition M (A : Type) : Type := world -> outcome A * world.

Definition ret {A} (a : A) : M A := fun w => (Ret a, w).

Definition bind {A B} (m : M A) (k : A -> M B) : M B := fun w =>
  match m w with
  | (Ret a, w') => k a w'
  | (Raise e, w') => (Raise e, w')
  | (Exit c, w') => (Exit c, w')
  | (Timeout, w') => (Timeout, w')
  end.

Notation "x <- m ;; k" := (bind m (fun x => k))
  (at level 100, m at next level, right associativity).
Notation "m ;; k" := (bind m (fun _ => k))
  (at level 100, right associativity).

Definition raise {A} (e : exn) : M A := fun w => (Raise e, w).
Definition exit {A} (code : Z) : M A := fun w => (Exit code, w).
Definition emit (e : event) : M unit := fun w => (Ret tt, log e w).

(** [try: body / except Exception as e: handler e]. *)
Definition try_except {A} (body : M A) (handler : exn -> M A) : M A := fun w =>
  match body w with
  | (Raise e, w') => handler e w'
  | r => r
  end.

(** ** Built-ins and library calls *)

Definition print (c : color) (s : string) : M unit := emit (EvPrint c s).

(** [input(prompt)]: the next line of standard input, [EOFError] at its end. *)
Definition input (prompt : string) : M string := fun w =>
  match stdin w with
  | [] => (Raise EOFError, log (EvInput prompt) w)
  | l :: rest => (Ret l, set_stdin rest (log (EvInput prompt) w))
  end.

(** Python's whitespace among the ASCII characters. *)
Definition isspace (a : ascii) : bool :=
  let n := nat_of_ascii a in
  ((9 <=? n) && (n <=? 13) || (28 <=? n) && (n <=? 32))%nat.

Fixpoint lstrip (s : string) : string :=
  match s with
  | String a s' => if isspace a then lstrip s' else s
  | EmptyString => EmptyString
  end.

Fixpoint rstrip (s : string) : string :=
  match s with
  | String a s' =>
      match rstrip s' with
      | EmptyString => if isspace a then EmptyString else String a EmptyString
      | t => String a t
      end
  | EmptyString => EmptyString
  end.

Definition strip (s : string) : string := rstrip (lstrip s).

(** [os.path.exists]: true of files and of directories alike. *)
Definition path_exists (p : string) : M bool := fun w =>
  (Ret (bool_decide (is_Some (fs w !! p))), w).

(** An open [wave.Wave_read]: the header and the samples not read yet. *)
Record Wave_read : Type := mk_Wave_read {
  header : wav;
  unread : list Byte.byte
}.

Definition getnchannels (wf : Wave_read) : Z := nchannels (header wf).
Definition getsampwidth (wf : Wave_read) : Z := sampwidth (header wf).
Definition getframerate (wf : Wave_read) : Z := framerate (header wf).
Definition getnframes (wf : Wave_read) : Z := nframes (header wf).

(** [wave.open(p, "rb")]. *)
Definition wave_open (p : string) : M Wave_read := fun w =>
  match fs w !! p with
  | None => (Raise (FileNotFoundError p), w)
  | Some Dir => (Raise (IsADirectoryError p), w)
  | Some (File (Wave h)) =>
      (Ret {| header := h; unread := pcm h |}, log (EvWaveOpen p) w)
  | Some (File _) =>
      (Raise (WaveError "file does not start with RIFF id"), w)
  end.

(** [wf.readframes(n)]: at most [n] frames, that is [n * nchannels *
    sampwidth] bytes, from the current position. *)
Definition readframes (wf : Wave_read) (n : Z) : M (list Byte.byte * Wave_read) :=
  let k := Z.to_nat (n * (getnchannels wf * getsampwidth wf)) in
  let data := take k (unread wf) in
  emit (EvReadFrames n data) ;;
  ret (data, {| header := header wf; unread := drop k (unread wf) |}).

Definition wave_close (wf : Wave_read) : M unit := emit EvWaveClose.

(** [open(p, "w", encoding="utf-8")]: creates or truncates the file. *)
Definition open_w (p : string) : M unit := fun w =>
  match fs w !! p with
  | Some Dir => (Raise (IsADirectoryError p), log (EvOpenW p) w)
  | _ => (Ret tt, set_fs (<[p := File (Raw "")]> (fs w)) (log (EvOpenW p) w))
  end.

(** [json.dump(doc, f, ensure_ascii=False, indent=4)] on a file just opened. *)
Definition json_dump (doc : list (gmap string jval)) (p : string) : M unit := fun w =>
  (Ret tt, set_fs (<[p := File (JsonDump doc)]> (fs w)) w).

(** [f.write(s)]. *)
Definition file_write (p : string) (s : string) : M unit := fun w =>
  match fs w !! p with
  | Some (File (Raw old)) => (Ret tt, set_fs (<[p := File (Raw (old +:+ s))]> (fs w)) w)
  | _ => (Ret tt, set_fs (<[p := File (Raw s)]> (fs w)) w)
  end.

Definition nl : string := String (ascii_of_nat 10) EmptyString.

(** [v + s] for a [str] [s]: concatenation when [v] is a [str] too. *)
Definition str_add (v : jval) (s : string) : M string :=
  match v with
  | JStr t => ret (t +:+ s)
  | _ => raise (TypeError "unsupported operand type(s) for +")
  end.

(** [print(colour + v)]: the colour code is a [str], so [v] must be one. *)
Definition print_value (c : color) (v : jval) : M unit :=
  match v with
  | JStr t => print c t
  | _ => raise (TypeError "can only concatenate str to str")
  end.

(** [x or 0] on an optional number: [None] and [0.0] are both falsy. *)
Definition or_zero (x : option Q) : Q :=
  match x with
  | Some v => if Qeq_bool v 0 then 0%Q else v
  | None => 0%Q
  end.

(** ** The recognizer and the progress clock *)

(** The binding of the recognition engine.  [None] stands for an exception
    raised by the engine; [Result] and [FinalResult] are taken together with
    the [json.loads] applied to them. *)
Class Vosk : Type := {
  model_t : Type;
  recognizer_t : Type;
  Model : string -> option model_t;
  KaldiRecognizer : model_t -> Z -> recognizer_t;
  AcceptWaveform : recognizer_t -> list Byte.byte -> option (bool * recognizer_t);
  Result : recognizer_t -> gmap string jval * recognizer_t;
  FinalResult : recognizer_t -> gmap string jval * recognizer_t
}.

(** The two derived properties of a progress task that depend on the wall
    clock. *)
Class Rich : Type := {
  speed : Task -> option Q;
  time_remaining : Task -> option Q
}.

(** ** The script *)

Section Transcribe.
Context {V : Vosk} {R : Rich}.

Definition print_step (message : string) (c : color) : M unit :=
  print c ("✨ " +:+ message).

(** [progress.add_task(..., total=n)] and [progress.update(task, advance=n)]. *)
Definition add_task (n : Z) : Task :=
  {| total := n; completed := 0; updates := 0 |}.

Definition update (t : Task) (advance : Z) : Task :=
  {| total := total t; completed := completed t + advance;
     updates := S (updates t) |}.

(** The local variables the reading loop changes. *)
Record feed_state : Type := mk_feed_state {
  st_wf : Wave_read;
  st_recognizer : recognizer_t;
  st_results : list (gmap string jval);
  st_frames_processed : Z;
  st_task : Task
}.

Definition chunk_size : Z := 4000.

Definition len (data : list Byte.byte) : Z := Z.of_nat (length data).

(** The rows of the metrics table (lines 100 to 107). *)
Definition table_rows (frames_processed total_frames : Z) (t : Task)
  : list (string * cell) :=
  let speed := or_zero (speed t) in
  let time_remaining := or_zero (time_remaining t) in
  [ ("Frames Processed", Count frames_processed);
    ("Total Frames", Count total_frames);
    ("Processing Speed", Rate speed);
    ("Time Remaining", Seconds time_remaining) ].

(** The [while True] loop of lines 87 to 111; one unit of fuel per read. *)
Fixpoint feed (fuel : nat) (total_frames : Z) (st : feed_state) : M feed_state :=
  match fuel with
  | O => fun w => (Timeout, w)
  | S fuel' =>
      r <- readframes (st_wf st) chunk_size ;;
      let data := fst r in
      let frames_processed := st_frames_processed st + len data in
      if len data =? 0 then
        ret {| st_wf := snd r; st_recognizer := st_recognizer st;
               st_results := st_results st;
               st_frames_processed := frames_processed; st_task := st_task st |}
      else
        match AcceptWaveform (st_recognizer st) data with
        | None => raise (EngineError "Failed to process waveform")
        | Some (accepted, rec1) =>
            let '(results, rec2) :=
              if accepted
              then (st_results st ++ [fst (Result rec1)], snd (Result rec1))
              else (st_results st, rec1) in
            let task := update (st_task st) (len data) in
            emit (EvLiveTable (table_rows frames_processed total_frames task)) ;;
            emit (EvLiveProgress task) ;;
            feed fuel' total_frames
              {| st_wf := snd r; st_recognizer := rec2; st_results := results;
                 st_frames_processed := frames_processed; st_task := task |}
        end
  end.

(** The [for result in results] loop of lines 132 to 134. *)
Fixpoint write_texts (output_txt : string) (results : list (gmap string jval))
  : M unit :=
  match results with
  | [] => ret tt
  | result :: rest =>
      match result !! "text" with
      | Some v => line <- str_add v nl ;; file_write output_txt line
      | None => ret tt
      end ;;
      write_texts output_txt rest
  end.

(** The [for result in results] loop of lines 141 to 143. *)
Fixpoint show_texts (results : list (gmap string jval)) : M unit :=
  match results with
  | [] => ret tt
  | result :: rest =>
      match result !! "text" with
      | Some v => print_value LIGHTCYAN_EX v
      | None => ret tt
      end ;;
      show_texts rest
  end.

(** Lines 124 to 137: both files are written inside one [try]. *)
Definition save_results (results : list (gmap string jval))
    (output_json output_txt : string) : M unit :=
  try_except
    (open_w output_json ;;
     json_dump results output_json ;;
     print_step ("✅ Transcription saved successfully to " +:+ output_json +:+ ".") GREEN ;;
     open_w output_txt ;;
     write_texts output_txt results ;;
     print_step ("✅ Transcription saved successfully to " +:+ output_txt +:+ ".") GREEN)
    (fun e => print_step ("❌ Error saving transcription: " +:+ str_exn e) RED).

(** The condition of line 53. *)
Definition bad_format (wf : Wave_read) : bool :=
  negb (getnchannels wf =? 1) || negb (getsampwidth wf =? 2)
  || negb ((getframerate wf =? 8000) || (getframerate wf =? 16000)).

Definition valid_format (wf : Wave_read) : bool := negb (bad_format wf).

Definition transcribe_audio (model_path audio_file output_json output_txt : string)
  : M unit :=
  print_step "Checking Persian model..." MAGENTA ;;
  found <- path_exists model_path ;;
  (if negb found then
     print_step ("❌ Persian model not found at " +:+ model_path +:+ "!") RED ;;
     exit 1
   else ret tt) ;;
  print_step "Loading Persian model..." BLUE ;;
  model <- match Model model_path with
           | Some m => ret m
           | None => raise (EngineError "Failed to create a model")
           end ;;
  print_step "✅ Persian model loaded successfully." GREEN ;;
  print_step "Checking audio file..." CYAN ;;
  found <- path_exists audio_file ;;
  (if negb found then
     print_step ("❌ Audio file not found at " +:+ audio_file +:+ "!") RED ;;
     exit 1
   else ret tt) ;;
  print_step "Opening audio file..." YELLOW ;;
  wf <- try_except (wave_open audio_file)
          (fun e => print_step ("❌ Error opening audio file: " +:+ str_exn e) RED ;;
                    exit 1) ;;
  print_step "✅ Audio file opened successfully." GREEN ;;
  print_step "Validating audio file specifications..." LIGHTBLUE_EX ;;
  (if bad_format wf then
     print_step "❌ Audio file must be mono, 16-bit, and have a sample rate of 8000 or 16000 Hz!" RED ;;
     exit 1
   else ret tt) ;;
  print_step "✅ Audio file specifications validated." GREEN ;;
  print_step "Initializing recognizer..." LIGHTMAGENTA_EX ;;
  let recognizer := KaldiRecognizer model (getframerate wf) in
  print_step "✅ Recognizer initialized successfully." GREEN ;;
  let total_frames := getnframes wf in
  print_step "Starting audio-to-text conversion..." LIGHTCYAN_EX ;;
  st <- feed (S (length (unread wf))) total_frames
          {| st_wf := wf; st_recognizer := recognizer; st_results := [];
             st_frames_processed := 0; st_task := add_task total_frames |} ;;
  let results := st_results st ++ [fst (FinalResult (st_recognizer st))] in
  print_step "Closing audio file..." LIGHTRED_EX ;;
  wave_close (st_wf st) ;;
  print_step "✅ Audio file closed successfully." GREEN ;;
  print_step "Saving transcription results..." LIGHTGREEN_EX ;;
  save_results results output_json output_txt ;;
  print_step "Transcription result:" LIGHTBLUE_EX ;;
  show_texts results.

Definition model_path : string :=
  "E:\1 python\voice to text\vosk-model-fa-0.42\vosk-model-fa-0.42".

(** The prompt loop of lines 149 to 154; one unit of fuel per line read. *)
Fixpoint prompt_loop (fuel : nat) : M string :=
  match fuel with
  | O => fun w => (Timeout, w)
  | S fuel' =>
      line <- input "Please enter the path to your audio file: " ;;
      let audio_file := strip line in
      found <- path_exists audio_file ;;
      if found then ret audio_file
      else
        print RED "❌ Audio file not found! Please enter a valid path." ;;
        prompt_loop fuel'
  end.

(** The module body, lines 145 to 164. *)
Definition main : M unit := fun w =>
  (audio_file <- prompt_loop (S (length (stdin w))) ;;
   let output_json := "output.json" in
   let output_txt := "output.txt" in
   transcribe_audio model_path audio_file output_json output_txt ;;
   input (nl +:+ "Press Enter to exit...") ;;
   ret tt) w.

(** The exit status of the interpreter: 0 after a normal end, the argument
    of [exit], 1 after an uncaught exception. *)
Definition exit_status {A} (o : outcome A) : option Z :=
  match o with
  | Ret _ => Some 0
  | Exit c => Some c
  | Raise _ => Some 1
  | Timeout => None
  end.

End Transcribe.

(** ** A small engine and clock to run the script on *)

Module Demo.

(** The recognizer counts the chunks it was fed, signals an utterance
    boundary on every second chunk, and fails on a chunk that starts with
    the byte [0xff]. *)
Definition accept (r : nat) (data : list Byte.byte) : option (bool * nat) :=
  match data with
  | Byte.xff :: _ => None
  | _ => Some (Nat.odd r, S r)
  end.

Definition utterance : gmap string jval := {[ "text" := JStr "salam" ]}.
Definition final : gmap string jval := {[ "text" := JStr "" ]}.

Definition vosk : Vosk := {|
  model_t := unit;
  recognizer_t := nat;
  Model := fun _ => Some tt;
  KaldiRecognizer := fun _ _ => O;
  AcceptWaveform := accept;
  Result := fun r => (utterance, r);
  FinalResult := fun r => (final, r)
|}.

(** No rate before the second update; afterwards one unit per update. *)
Definition rich : Rich := {|
  speed := fun t =>
    match updates t with
    | O | S O => None
    | _ => Some (Qmake (completed t) (Pos.of_nat (updates t)))
    end;
  time_remaining := fun t =>
    match updates t with
    | O | S O => None
    | _ => Some (Qmake (total t - completed t) 1)
    end
|}.

Definition silence (n : nat) : list Byte.byte := repeat Byte.x00 n.

Definition mono16 (rate : Z) (data : list Byte.byte) : wav :=
  {| nchannels := 1; sampwidth := 2; framerate := rate;
     nframes := Z.of_nat (length data) / 2; pcm := data |}.

Definition stereo16 (rate : Z) (data : list Byte.byte) : wav :=
  {| nchannels := 2; sampwidth := 2; framerate := rate;
     nframes := Z.of_nat (length data) / 4; pcm := data |}.

(** A disk with the model directory, a few audio files, a text file and a
    directory. *)
Definition disk : gmap string node :=
  <[ model_path := Dir ]>
  (<[ "empty.wav" := File (Wave (mono16 16000 [])) ]>
  (<[ "short.wav" := File (Wave (mono16 16000 (silence 6))) ]>
  (<[ "stereo.wav" := File (Wave (stereo16 16000 (silence 8))) ]>
  (<[ "notes.txt" := File (Raw "hello") ]>
  (<[ "music" := Dir ]> ∅))))).

Definition start (f : gmap string node) (lines : list string) : world :=
  {| fs := f; stdin := lines; trace := [] |}.

End Demo.

(** Inputs for the runs at the end of the file. *)
Module Runs.

Definition blocked_json : gmap string node := <[ "output.json" := Dir ]> Demo.disk.
Definition blocked_txt : gmap string node := <[ "output.txt" := Dir ]> Demo.disk.

Definition no_text : gmap string jval := {[ "partial" := JStr "sal" ]}.

Definition records : list (gmap string jval) :=
  [Demo.utterance; no_text; Demo.final].

Definition fresh (wf : Wave_read) : @feed_state Demo.vosk :=
  @mk_feed_state Demo.vosk wf (@KaldiRecognizer Demo.vosk tt (getframerate wf))
    [] 0 (add_task (getnframes wf)).

Definition opened (h : wav) : Wave_read := {| header := h; unread := pcm h |}.

Definition long_wav : wav := Demo.mono16 16000 (Demo.silence (Z.to_nat 8000)).

(** A data chunk of three bytes: one whole frame and a half. *)
Definition odd_wav : wav := Demo.mono16 16000 (Demo.silence 3).
Definition short_wav : wav := Demo.mono16 16000 (Demo.silence 6).

(** A stream the demo recognizer fails on, and a disk that holds it. *)
Definition noisy_wav : wav := Demo.mono16 16000 [Byte.xff; Byte.x00].

Definition noisy_disk : gmap string node :=
  <[ "noisy.wav" := File (Wave noisy_wav) ]> Demo.disk.

Definition no_model : gmap string node := delete model_path Demo.disk.

(** The demo recognizer with a final result whose [text] is not a string. *)
Definition odd_final : gmap string jval := {[ "text" := JNull ]}.

Definition odd_vosk : Vosk := {|
  model_t := unit;
  recognizer_t := nat;
  Model := fun _ => Some tt;
  KaldiRecognizer := fun _ _ => O;
  AcceptWaveform := Demo.accept;
  Result := fun r => (Demo.utterance, r);
  FinalResult := fun r => (odd_final, r)
|}.

(** An engine that cannot load its model. *)
Definition refusing_vosk : Vosk := {|
  model_t := unit;
  recognizer_t := nat;
  Model := fun _ => None;
  KaldiRecognizer := fun _ _ => O;
  AcceptWaveform := Demo.accept;
  Result := fun r => (Demo.utterance, r);
  FinalResult := fun r => (Demo.final, r)
|}.

End Runs.

(** ** Reading traces *)

Fixpoint count (P : event -> bool) (t : list event) : nat :=
  match t with
  | [] => 0
  | e :: t' => (if P e then 1 else 0) + count P t'
  end.

Definition is_wave_open (e : event) : bool :=
  match e with EvWaveOpen _ => true | _ => false end.
Definition is_close (e : event) : bool :=
  match e with EvWaveClose => true | _ => false end.
Definition is_read (e : event) : bool :=
  match e with EvReadFrames _ _ => true | _ => false end.
Definition is_input (e : event) : bool :=
  match e with EvInput _ => true | _ => false end.
Definition is_open_w (p : string) (e : event) : bool :=
  match e with EvOpenW q => bool_decide (p = q) | _ => false end.

(** The chunks returned by the reads of a trace, in order. *)
Fixpoint reads (t : list event) : list (list Byte.byte) :=
  match t with
  | [] => []
  | EvReadFrames _ data :: t' => data :: reads t'
  | _ :: t' => reads t'
  end.

(** The events of the reading loop: reads and display updates. *)
Definition loop_event (e : event) : bool :=
  match e with
  | EvReadFrames _ _ | EvLiveTable _ | EvLiveProgress _ => true
  | _ => false
  end.

(** Console output: printed lines and updates of the live display. *)
Definition is_console (e : event) : bool :=
  match e with
  | EvPrint _ _ | EvLiveTable _ | EvLiveProgress _ => true
  | _ => false
  end.

(** A trace without its console output: the accesses to files and to
    standard input. *)
Fixpoint actions (t : list event) : list event :=
  match t with
  | [] => []
  | e :: t' => if is_console e then actions t' else e :: actions t'
  end.

(** The "Frames Processed" cell of a table update. *)
Definition frames_shown (e : event) : option Z :=
  match e with
  | EvLiveTable ((_, Count n) :: _) => Some n
  | _ => None
  end.

(** The values "Frames Processed" takes on the display, in order. *)
Fixpoint shown (t : list event) : list Z :=
  match t with
  | [] => []
  | e :: t' =>
      match frames_shown e with
      | Some n => n :: shown t'
      | None => shown t'
      end
  end.

(** The byte counts reached after each of the chunks [cs], starting from
    [acc]. *)
Fixpoint running (acc : Z) (cs : list (list Byte.byte)) : list Z :=
  match cs with
  | [] => []
  | c :: cs' => (acc + Z.of_nat (length c)) :: running (acc + Z.of_nat (length c)) cs'
  end.

Definition add_events (evs : list event) (w : world) : world :=
  {| fs := fs w; stdin := stdin w; trace := trace w ++ evs |}.

(** ** The loop, as a function of the stream *)

(** A list cut into pieces of [k] elements, the last one possibly shorter. *)
Fixpoint chunks_upto {A} (fuel k : nat) (l : list A) : list (list A) :=
  match fuel with
  | O => []
  | S fuel' =>
      match l with
      | [] => []
      | _ => take k l :: chunks_upto fuel' k (drop k l)
      end
  end.

Definition chunks {A} (k : nat) (l : list A) : list (list A) :=
  chunks_upto (length l) k l.

Section Engine.
Context {V : Vosk}.

(** What the recognizer yields when fed the chunks [cs] from state [r]: the
    intermediate results and its last state, or [None] if it fails. *)
Fixpoint engine_run (r : recognizer_t) (cs : list (list Byte.byte))
  : option (list (gmap string jval) * recognizer_t) :=
  match cs with
  | [] => Some ([], r)
  | c :: cs' =>
      match AcceptWaveform r c with
      | None => None
      | Some (accepted, r1) =>
          let '(out, r2) :=
            if accepted then ([fst (Result r1)], snd (Result r1)) else ([], r1) in
          match engine_run r2 cs' with
          | Some (res, r3) => Some (out ++ res, r3)
          | None => None
          end
      end
  end.

(** Whether the recognizer takes all of the chunks [cs] without failing. *)
Definition engine_accepts (r : recognizer_t) (cs : list (list Byte.byte)) : bool :=
  match engine_run r cs with
  | Some _ => true
  | None => false
  end.

End Engine.

Section Continuation.
Context {V : Vosk} {R : Rich}.

(** What [transcribe_audio] does from the reading loop on (lines 84 to
    143). *)
Definition recognize_and_save (model : model_t) (wf : Wave_read)
    (output_json output_txt : string) : M unit :=
  st <- feed (S (length (unread wf))) (getnframes wf)
          {| st_wf := wf;
             st_recognizer := KaldiRecognizer model (getframerate wf);
             st_results := [];
             st_frames_processed := 0; st_task := add_task (getnframes wf) |} ;;
  print_step "Closing audio file..." LIGHTRED_EX ;;
  wave_close (st_wf st) ;;
  print_step "✅ Audio file closed successfully." GREEN ;;
  print_step "Saving transcription results..." LIGHTGREEN_EX ;;
  save_results (st_results st ++ [fst (FinalResult (st_recognizer st))])
    output_json output_txt ;;
  print_step "Transcription result:" LIGHTBLUE_EX ;;
  show_texts (st_results st ++ [fst (FinalResult (st_recognizer st))]).

End Continuation.

(** The bytes one [readframes(chunk_size)] asks for. *)
Definition read_size (wf : Wave_read) : nat :=
  Z.to_nat (chunk_size * (getnchannels wf * getsampwidth wf)).

(** ** The output files, as the specification words them *)

(** Whether the [text] field of a record, when present, is a [str]. *)
Definition text_is_str (r : gmap string jval) : bool :=
  match r !! "text" with
  | Some (JStr _) | None => true
  | Some _ => false
  end.

(** The [text] values of the records that have the field, in order. *)
Fixpoint texts (rs : list (gmap string jval)) : list jval :=
  match rs with
  | [] => []
  | r :: rs' =>
      match r !! "text" with
      | Some v => v :: texts rs'
      | None => texts rs'
      end
  end.

(** A file of lines, each ended by a newline. *)
Fixpoint lines_file (ls : list string) : string :=
  match ls with
  | [] => ""
  | l :: ls' => l +:+ nl +:+ lines_file ls'
  end.

(** [open(p, "w")] succeeds: [p] is not a directory. *)
Definition writable (f : gmap string node) (p : string) : bool :=
  match f !! p with
  | Some Dir => false
  | _ => true
  end.

(** The lines [print_step] writes around the two writes. *)
Definition step_line (message : string) : string := "✨ " +:+ message.

Definition saved_line (p : string) : event :=
  EvPrint GREEN (step_line ("✅ Transcription saved successfully to " +:+ p +:+ ".")).

Definition save_error_line (e : exn) : event :=
  EvPrint RED (step_line ("❌ Error saving transcription: " +:+ str_exn e)).

(** ** The prompt, as the specification words it *)

(** No file and no directory has the name [p]. *)
Definition missing (f : gmap string node) (p : string) : bool :=
  match f !! p with
  | None => true
  | Some _ => false
  end.

(** A waveform file in the format the recognizer needs. *)
Definition usable_audio (n : node) : bool :=
  match n with
  | File (Wave h) => valid_format {| header := h; unread := pcm h |}
  | _ => false
  end.

(** A file the [wave] module parses. *)
Definition is_wave (n : node) : bool :=
  match n with
  | File (Wave _) => true
  | _ => false
  end.

(** The exception [wave.open] raises on a node that is not such a file. *)
Definition open_error (p : string) (n : node) : exn :=
  match n with
  | Dir => IsADirectoryError p
  | File _ => WaveError "file does not start with RIFF id"
  end.

(** ** Lemmas on traces and chunks *)

Lemma count_app P t1 t2 : count P (t1 ++ t2) = (count P t1 + count P t2)%nat.
Proof. induction t1 as [|e t1 IH]; simpl; [done | rewrite IH; lia]. Qed.

Lemma count_none (Q P : event -> bool) evs :
  (forall e, Q e = true -> P e = false) ->
  forallb Q evs = true -> count P evs = O.
Proof.
  intros HP. induction evs as [|e evs IH]; simpl; [done |].
  intros [He Hevs]%andb_prop. rewrite (HP e He). auto.
Qed.

Lemma count_map_reads P n cs :
  (forall c, P (EvReadFrames n c) = false) ->
  count P (map (EvReadFrames n) cs) = O.
Proof.
  intros HP. induction cs as [|c cs IH]; simpl; [done |]. by rewrite HP, IH.
Qed.

Lemma reads_none (Q : event -> bool) evs :
  (forall e, Q e = true -> is_read e = false) ->
  forallb Q evs = true -> reads evs = [].
Proof.
  intros HQ. induction evs as [|e evs IH]; simpl; [done |].
  intros [He Hevs]%andb_prop. specialize (HQ e He).
  destruct e; try done; by apply IH.
Qed.

Lemma forallb_weaken {A} (Q Q' : A -> bool) l :
  (forall x, Q x = true -> Q' x = true) ->
  forallb Q l = true -> forallb Q' l = true.
Proof.
  intros HQ. induction l as [|x l IH]; simpl; [done |].
  intros [Hx Hl]%andb_prop. by rewrite (HQ x Hx), IH.
Qed.

Lemma forallb_app_true {A} (Q : A -> bool) l1 l2 :
  forallb Q l1 = true -> forallb Q l2 = true -> forallb Q (l1 ++ l2) = true.
Proof. intros H1 H2. rewrite forallb_app, H1, H2. done. Qed.

Lemma reads_app t1 t2 : reads (t1 ++ t2) = reads t1 ++ reads t2.
Proof.
  induction t1 as [|e t1 IH]; simpl; [done |].
  destruct e; simpl; rewrite ?IH; done.
Qed.

Lemma actions_app t1 t2 : actions (t1 ++ t2) = actions t1 ++ actions t2.
Proof.
  induction t1 as [|e t1 IH]; simpl; [done |].
  destruct (is_console e); simpl; by rewrite IH.
Qed.

Lemma count_actions P t :
  (forall e, is_console e = true -> P e = false) ->
  count P (actions t) = count P t.
Proof.
  intros HP. induction t as [|e t IH]; simpl; [done |].
  destruct (is_console e) eqn:He; simpl; rewrite IH; [|done].
  by rewrite (HP e He).
Qed.

Lemma reads_actions t : reads (actions t) = reads t.
Proof.
  induction t as [|e t IH]; simpl; [done |].
  destruct e; simpl; by rewrite ?IH.
Qed.

Lemma reads_map n cs : reads (map (EvReadFrames n) cs) = cs.
Proof. induction cs as [|c cs IH]; simpl; by rewrite ?IH. Qed.

Lemma add_events_log e w : log e w = add_events [e] w.
Proof. reflexivity. Qed.

Lemma add_events_add a b w :
  add_events b (add_events a w) = add_events (a ++ b) w.
Proof. unfold add_events; simpl. by rewrite app_assoc. Qed.

Lemma chunks_upto_enough {A} f1 f2 k (l : list A) :
  (0 < k)%nat -> (length l <= f1)%nat -> (length l <= f2)%nat ->
  chunks_upto f1 k l = chunks_upto f2 k l.
Proof.
  intros Hk. revert f2 l.
  induction f1 as [|f1 IH]; intros f2 l H1 H2.
  - destruct l; simpl in *; [by destruct f2 | lia].
  - destruct l as [|a l]; [by destruct f2 |].
    destruct f2 as [|f2]; simpl in H1, H2; [lia |].
    cbn [chunks_upto]. f_equal.
    apply IH; rewrite length_drop; simpl; lia.
Qed.

Lemma chunks_nil {A} k : chunks k (@nil A) = [].
Proof. reflexivity. Qed.

Lemma chunks_cons {A} k (l : list A) :
  (0 < k)%nat -> l <> [] -> chunks k l = take k l :: chunks k (drop k l).
Proof.
  intros Hk Hl. unfold chunks.
  destruct l as [|a l]; [done |].
  change (length (a :: l)) with (S (length l)).
  cbn [chunks_upto]. f_equal.
  apply chunks_upto_enough; [done | | done].
  rewrite length_drop. simpl. lia.
Qed.

Lemma concat_chunks {A} k (l : list A) : (0 < k)%nat -> concat (chunks k l) = l.
Proof.
  intros Hk.
  remember (length l) as n eqn:Hn.
  revert l Hn. induction n as [n IH] using lt_wf_ind. intros l Hn.
  destruct l as [|a l]; [done |].
  rewrite chunks_cons by done. simpl concat.
  rewrite (IH (length (drop k (a :: l)))); [apply take_drop | | done].
  rewrite length_drop. subst n. simpl. lia.
Qed.

Lemma chunks_sizes {A} k (l : list A) i c :
  (0 < k)%nat -> chunks k l !! i = Some c ->
  (0 < length c <= k)%nat /\ ((S i < length (chunks k l))%nat -> length c = k).
Proof.
  intros Hk.
  remember (length l) as n eqn:Hn.
  revert l Hn i. induction n as [n IH] using lt_wf_ind. intros l Hn i.
  destruct l as [|a l]; [done |].
  rewrite chunks_cons by done.
  assert (Hd : (length (drop k (a :: l)) < n)%nat).
  { rewrite length_drop. subst n. simpl. lia. }
  destruct i as [|i]; simpl.
  - intros [= <-]. rewrite length_take. simpl length. split; [lia |].
    intros Hlen.
    destruct (drop k (a :: l)) as [|b l'] eqn:Hdrop; [simpl in Hlen; lia |].
    assert (length (drop k (a :: l)) = S (length l')) as Hl by (by rewrite Hdrop).
    rewrite length_drop in Hl. simpl in Hl. lia.
  - intros Hc. destruct (IH _ Hd _ eq_refl _ Hc) as [H1 H2].
    split; [done |]. intros Hlen. apply H2. lia.
Qed.

(** ** The reading loop *)

Section Feed.
Context {V : Vosk} {R : Rich}.

(** One turn of the loop, with the reads and the display written out. *)
Lemma feed_S fuel tf st w :
  feed (S fuel) tf st w =
  let k := read_size (st_wf st) in
  let data := take k (unread (st_wf st)) in
  let wf' := {| header := header (st_wf st); unread := drop k (unread (st_wf st)) |} in
  let w1 := log (EvReadFrames chunk_size data) w in
  let fp := st_frames_processed st + len data in
  if len data =? 0 then
    (Ret {| st_wf := wf'; st_recognizer := st_recognizer st;
            st_results := st_results st; st_frames_processed := fp;
            st_task := st_task st |}, w1)
  else
    match AcceptWaveform (st_recognizer st) data with
    | None => (Raise (EngineError "Failed to process waveform"), w1)
    | Some (accepted, rec1) =>
        let task := update (st_task st) (len data) in
        feed fuel tf
          {| st_wf := wf';
             st_recognizer := if accepted then snd (Result rec1) else rec1;
             st_results :=
               if accepted then st_results st ++ [fst (Result rec1)]
               else st_results st;
             st_frames_processed := fp; st_task := task |}
          (log (EvLiveProgress task) (log (EvLiveTable (table_rows fp tf task)) w1))
    end.
Proof.
  cbn [feed]. unfold readframes, emit, ret, raise, bind. cbn beta iota zeta.
  fold (read_size (st_wf st)). cbn [fst snd].
  destruct (len _ =? 0); [done |].
  destruct (AcceptWaveform _ _) as [[[] rec1]|]; done.
Qed.

Lemma len_take_drop k (l : list Byte.byte) : len (take k l) + len (drop k l) = len l.
Proof.
  unfold len. rewrite <- Nat2Z.inj_add, <- length_app, take_drop. done.
Qed.

(** The whole loop.  With one unit of fuel more than there are unread bytes
    it reads the stream chunk by chunk up to the empty read, and ends as the
    recognizer does on those chunks. *)
Lemma feed_inv fuel tf st w :
  (0 < read_size (st_wf st))%nat ->
  (length (unread (st_wf st)) < fuel)%nat ->
  exists evs, forallb loop_event evs = true /\
    match engine_run (st_recognizer st)
            (chunks (read_size (st_wf st)) (unread (st_wf st))) with
    | Some (res, r') =>
        exists st', feed fuel tf st w = (Ret st', add_events evs w) /\
          actions evs =
            map (EvReadFrames chunk_size)
              (chunks (read_size (st_wf st)) (unread (st_wf st)) ++ [[]]) /\
          st_results st' = st_results st ++ res /\
          st_recognizer st' = r' /\
          st_frames_processed st' =
            st_frames_processed st + len (unread (st_wf st)) /\
          completed (st_task st') =
            completed (st_task st) + len (unread (st_wf st)) /\
          total (st_task st') = total (st_task st) /\
          header (st_wf st') = header (st_wf st) /\
          unread (st_wf st') = [] /\
          shown evs =
            running (st_frames_processed st)
              (chunks (read_size (st_wf st)) (unread (st_wf st)))
    | None =>
        feed fuel tf st w =
          (Raise (EngineError "Failed to process waveform"), add_events evs w)
    end.
Proof.
  revert st w. induction fuel as [|fuel IH]; intros st w Hk Hfuel; [lia |].
  rewrite feed_S. cbn zeta.
  set (k := read_size (st_wf st)) in *.
  destruct (unread (st_wf st)) as [|b l] eqn:Hl.
  - (* end of the stream: the read is empty *)
    rewrite take_nil, drop_nil, chunks_nil. cbn [engine_run len length Z.of_nat Z.eqb].
    exists [EvReadFrames chunk_size []]. split; [done |].
    eexists. split; [reflexivity |]. cbn.
    rewrite app_nil_r, !Z.add_0_r. done.
  - (* a chunk of [k] bytes, or what is left *)
    rewrite (chunks_cons k (b :: l)) by done.
    set (data := take k (b :: l)).
    assert (Hdata : (len data =? 0) = false).
    { apply Z.eqb_neq. unfold len, data. rewrite length_take. simpl length. lia. }
    rewrite Hdata. cbn [engine_run].
    destruct (AcceptWaveform (st_recognizer st) data) as [[accepted rec1]|].
    2: { exists [EvReadFrames chunk_size data]. split; done. }
    pose proof (len_take_drop k (b :: l)) as Hlen. fold data in Hlen.
    destruct accepted; cbn iota.
    all: match goal with |- context [feed ?f _ ?s ?w'] =>
      assert (H1 : (0 < read_size (st_wf s))%nat) by done;
      assert (H2 : (length (unread (st_wf s)) < f)%nat)
        by (cbn [st_wf unread]; rewrite length_drop; simpl in Hfuel |- *; lia);
      destruct (IH s w' H1 H2) as (evs & Hevs & Hrun) end.
    all: cbn [st_wf unread st_recognizer st_results st_frames_processed st_task
              header] in Hrun.
    all: change (read_size {| header := header (st_wf st);
                              unread := drop k (b :: l) |}) with k in Hrun.
    all: exists (EvReadFrames chunk_size data
            :: EvLiveTable (table_rows (st_frames_processed st + len data) tf
                              (update (st_task st) (len data)))
            :: EvLiveProgress (update (st_task st) (len data)) :: evs).
    all: split; [cbn; done |].
    all: assert (Hw : forall evs',
      add_events evs'
        (log (EvLiveProgress (update (st_task st) (len data)))
           (log (EvLiveTable (table_rows (st_frames_processed st + len data) tf
                                (update (st_task st) (len data))))
              (log (EvReadFrames chunk_size data) w))) =
      add_events (EvReadFrames chunk_size data
            :: EvLiveTable (table_rows (st_frames_processed st + len data) tf
                              (update (st_task st) (len data)))
            :: EvLiveProgress (update (st_task st) (len data)) :: evs') w)
      by (intros evs'; rewrite !add_events_log, !add_events_add; done).
    all: match type of Hrun with match ?e with _ => _ end =>
           destruct e as [[res r3]|] end; cbn beta iota zeta.
    2, 4: by rewrite Hrun, Hw.
    all: destruct Hrun
           as (st' & Hfeed & Hreads & Hres & Hrec & Hfp & Hc & Ht & Hh & Hu & Hsh).
    all: exists st'; rewrite Hfeed, Hw.
    all: repeat split; try done.
    all: try (cbn [actions is_console app map]; by rewrite Hreads).
    all: try (rewrite Hres; by rewrite <- ?app_assoc).
    all: try (cbn [shown frames_shown table_rows running]; by rewrite Hsh).
    all: try lia.
    all: rewrite Hc; cbn [update completed]; lia.
Qed.

End Feed.

(** ** Saving and showing the results *)

Lemma append_assoc (a b c : string) : (a +:+ b) +:+ c = a +:+ (b +:+ c).
Proof.
  induction a as [|x a IH]; [done |].
  change (String x ((a +:+ b) +:+ c) = String x (a +:+ (b +:+ c))). by f_equal.
Qed.

Lemma append_empty_r (a : string) : a +:+ "" = a.
Proof.
  induction a as [|x a IH]; [done |].
  change (String x (a +:+ "") = String x a). by f_equal.
Qed.

(** The text loop on a file that holds [old]: it appends the lines of a
    prefix [written] of the records, all of them unless a [text] value is
    not a string, and touches nothing else. *)
Lemma write_texts_spec pt rs w old :
  fs w !! pt = Some (File (Raw old)) ->
  exists o w' written ls,
    write_texts pt rs w = (o, w') /\
    written `prefix_of` rs /\
    texts written = map JStr ls /\
    fs w' = <[pt := File (Raw (old +:+ lines_file ls))]> (fs w) /\
    trace w' = trace w /\ stdin w' = stdin w /\
    match o with
    | Ret _ => written = rs /\ forallb text_is_str rs = true
    | Raise (TypeError _) => forallb text_is_str rs = false
    | _ => False
    end.
Proof.
  revert w old. induction rs as [|r rs IH]; intros w old Hold.
  - exists (Ret tt), w, [], []. cbn. rewrite append_empty_r, insert_id by done.
    done.
  - cbn [write_texts]. unfold bind at 1. cbn [forallb]. unfold text_is_str at 1 3.
    destruct (r !! "text") as [v|] eqn:Hv.
    + destruct v as [| | |s| |].
      1-3, 5-6:
        (exists (Raise (TypeError "unsupported operand type(s) for +")), w, [], [];
         cbn; rewrite append_empty_r, insert_id by done;
         repeat split; try done; apply prefix_nil).
      cbn [str_add bind ret]. unfold file_write at 1. rewrite Hold.
      match goal with |- context [write_texts pt rs ?w1] =>
        destruct (IH w1 (old +:+ s +:+ nl)) as (o & w' & written & ls & Hrun & Hpre & Htx & Hfs & Htr & Hin & Ho)
      end.
      { cbn. apply lookup_insert_eq. }
      exists o, w', (r :: written), (s :: ls). rewrite Hrun.
      repeat split; try done.
      * by apply prefix_cons.
      * cbn [texts map]. by rewrite Hv, Htx.
      * rewrite Hfs. cbn [fs set_fs lines_file].
        rewrite insert_insert_eq, !append_assoc. done.
      * destruct o as [[]|[]| |]; try done.
        destruct Ho as [-> Hs]. by rewrite Hs.
    + cbn [ret].
      destruct (IH w old Hold) as (o & w' & written & ls & Hrun & Hpre & Htx & Hfs & Htr & Hin & Ho).
      exists o, w', (r :: written), ls. rewrite Hrun.
      repeat split; try done.
      * by apply prefix_cons.
      * cbn [texts]. by rewrite Hv.
      * destruct o as [[]|[]| |]; try done.
        destruct Ho as [-> Hs]. by rewrite Hs.
Qed.

Lemma write_texts_any pt rs w :
  exists o w', write_texts pt rs w = (o, w') /\
    trace w' = trace w /\ stdin w' = stdin w /\
    match o with Ret _ | Raise _ => True | _ => False end.
Proof.
  revert w. induction rs as [|r rs IH]; intros w.
  - by exists (Ret tt), w.
  - cbn [write_texts]. unfold bind at 1.
    destruct (r !! "text") as [v|].
    + destruct v as [| | |s| |];
        try by (eexists (Raise _), w).
      cbn [str_add bind ret]. unfold file_write at 1.
      destruct (fs w !! pt) as [[|[old| |]]|];
        match goal with |- context [write_texts pt rs ?w1] =>
          destruct (IH w1) as (o & w' & Hrun & Htr & Hin & Ho) end;
        exists o, w'; rewrite Hrun; done.
    + cbn [ret]. apply IH.
Qed.

Lemma show_texts_spec rs w :
  exists o evs, show_texts rs w = (o, add_events evs w) /\
    forallb is_console evs = true /\
    match o with
    | Ret _ => True
    | Raise (TypeError _) => forallb text_is_str rs = false
    | _ => False
    end.
Proof.
  revert w. induction rs as [|r rs IH]; intros w.
  - exists (Ret tt), []. unfold add_events. rewrite app_nil_r.
    by destruct w.
  - cbn [show_texts forallb]. unfold bind at 1, text_is_str at 1.
    destruct (r !! "text") as [v|].
    + destruct v as [| | |s| |];
        try by (eexists (Raise (TypeError _)), []; unfold add_events;
                rewrite app_nil_r; destruct w).
      cbn [print_value print emit].
      destruct (IH (log (EvPrint LIGHTCYAN_EX s) w)) as (o & evs & Hrun & Hc & Ho).
      exists o, (EvPrint LIGHTCYAN_EX s :: evs).
      rewrite Hrun, add_events_log, add_events_add. done.
    + cbn [ret]. apply IH.
Qed.

(** Runs the straight-line part of a computation. *)
Ltac run :=
  unfold print_step, print, emit, ret, raise, exit, path_exists, json_dump,
    try_except, bind;
  cbn beta iota zeta; cbn [log set_fs set_stdin fs stdin trace negb].

Ltac run_in H :=
  unfold print_step, print, emit, ret, raise, exit, path_exists, json_dump,
    try_except, bind in H;
  cbn beta iota zeta in H; cbn [log set_fs set_stdin fs stdin trace negb] in H.

Section Save.
Context {V : Vosk} {R : Rich}.

(** Whatever the paths, saving ends normally and only opens files for
    writing. *)
Lemma save_results_total rs pj pt w :
  exists w' evs, save_results rs pj pt w = (Ret tt, w') /\
    trace w' = trace w ++ evs /\ stdin w' = stdin w /\
    forallb (fun e => is_console e || is_open_w pj e || is_open_w pt e) evs = true.
Proof.
  unfold save_results, try_except, open_w. run.
  destruct (fs w !! pj) as [[|c]|] eqn:Hj; run.
  all: try match goal with |- context [<[?a:=?x]> (<[?a:=?y]> ?f) !! ?b] =>
         destruct (<[a:=x]> (<[a:=y]> f) !! b) as [[|c']|] end; run.
  all: try match goal with |- context [write_texts ?b ?l ?w1] =>
         let Hrun := fresh "Hrun" in
         destruct (write_texts_any b l w1) as (o & w' & Hrun & Htr & Hin & Ho);
         rewrite Hrun; destruct o as [[]|e| |]; try done; run end.
  all: eexists _, _; split; [reflexivity |];
       split; [cbn [trace log set_fs]; rewrite ?Htr; cbn [trace log set_fs];
               rewrite <- ?app_assoc; cbn [app]; reflexivity |];
       split; [done |]; cbn;
       rewrite ?(bool_decide_eq_true_2 (pj = pj)),
         ?(bool_decide_eq_true_2 (pt = pt)) by done;
       cbn; rewrite ?orb_true_r; done.
Qed.

(** Saving to two different paths, case by case. *)
Lemma save_results_spec rs pj pt w :
  pj <> pt ->
  exists w' evs, save_results rs pj pt w = (Ret tt, w') /\
    trace w' = trace w ++ evs /\ stdin w' = stdin w /\
    if writable (fs w) pj then
      if writable (fs w) pt then
        exists written ls last,
          written `prefix_of` rs /\ texts written = map JStr ls /\
          fs w' = <[pt := File (Raw (lines_file ls))]>
                    (<[pj := File (JsonDump rs)]> (fs w)) /\
          evs = [EvOpenW pj; saved_line pj; EvOpenW pt; last] /\
          if forallb text_is_str rs
          then written = rs /\ last = saved_line pt
          else exists msg, last = save_error_line (TypeError msg)
      else
        fs w' = <[pj := File (JsonDump rs)]> (fs w) /\
        evs = [EvOpenW pj; saved_line pj; EvOpenW pt;
               save_error_line (IsADirectoryError pt)]
    else
      fs w' = fs w /\
      evs = [EvOpenW pj; save_error_line (IsADirectoryError pj)].
Proof.
  intros Hne. unfold save_results, try_except, open_w, writable. run.
  destruct (fs w !! pj) as [[|c]|] eqn:Hj; run.
  1: { eexists _, _. split; [reflexivity |]. cbn [trace log].
       rewrite <- app_assoc. done. }
  all: rewrite insert_insert_eq, lookup_insert_ne by done.
  all: destruct (fs w !! pt) as [[|c']|] eqn:Ht; run.
  all: try by (eexists _, _; split; [reflexivity |]; cbn [trace log set_fs];
               rewrite <- !app_assoc).
  all: match goal with |- context [write_texts ?b ?l ?w1] =>
         destruct (write_texts_spec b l w1 "")
           as (o & w' & written & ls & Hrun & Hpre & Htx & Hfs & Htr & Hin & Ho);
         [ cbn [fs set_fs log]; apply lookup_insert_eq | rewrite Hrun ] end.
  all: cbn [fs set_fs log] in Hfs; rewrite insert_insert_eq in Hfs.
  all: cbn [trace set_fs log] in Htr; cbn [stdin set_fs log] in Hin.
  all: destruct o as [[]|[]| |]; try done; run.
  all: eexists _, _; split; [reflexivity |]; cbn [trace log set_fs fs stdin];
       rewrite Htr, <- !app_assoc; cbn [app];
       split; [reflexivity |]; split; [done |].
  all: exists written, ls; eexists; repeat split; try done.
  all: match goal with
       | Hok : _ /\ _ |- _ => destruct Hok as [-> Hs]; by rewrite Hs
       | Hbad : _ = false |- _ => rewrite Hbad; eauto
       end.
Qed.

End Save.

(** ** The pipeline, path by path *)

Section Pipeline.
Context {V : Vosk} {R : Rich}.

(** The checks of lines 25 to 56, by the state of the disk. *)
Lemma transcribe_audio_checks mp af oj ot w :
  exists evs,
    match fs w !! mp with
    | None =>
        transcribe_audio mp af oj ot w = (Exit 1, add_events evs w) /\
        actions evs = []
    | Some _ =>
        match Model mp with
        | None =>
            transcribe_audio mp af oj ot w =
              (Raise (EngineError "Failed to create a model"), add_events evs w) /\
            actions evs = []
        | Some m =>
            match fs w !! af with
            | Some (File (Wave h)) =>
                let wf := {| header := h; unread := pcm h |} in
                actions evs = [EvWaveOpen af] /\
                if valid_format wf then
                  transcribe_audio mp af oj ot w =
                    recognize_and_save m wf oj ot (add_events evs w)
                else
                  transcribe_audio mp af oj ot w = (Exit 1, add_events evs w)
            | _ =>
                transcribe_audio mp af oj ot w = (Exit 1, add_events evs w) /\
                actions evs = []
            end
        end
    end.
Proof.
  unfold transcribe_audio, recognize_and_save, wave_open. run.
  destruct (fs w !! mp) as [n|] eqn:Hm.
  2: { rewrite bool_decide_eq_false_2 by (by intros [? ?]). run.
       rewrite !add_events_log, !add_events_add. by eexists. }
  rewrite bool_decide_eq_true_2 by eauto. run.
  destruct (Model mp) as [m|]; run.
  2: { rewrite !add_events_log, !add_events_add. by eexists. }
  destruct (fs w !! af) as [[|[s|h|doc]]|] eqn:Ha;
    rewrite ?bool_decide_eq_true_2 by eauto;
    rewrite ?bool_decide_eq_false_2 by (by intros [? ?]); run;
    rewrite ?Ha; run.
  1, 2, 4, 5: rewrite !add_events_log, !add_events_add; by eexists.
  unfold valid_format.
  destruct (bad_format {| header := h; unread := pcm h |}); run.
  all: rewrite !add_events_log, !add_events_add.
  all: eexists; split; [| reflexivity]; done.
Qed.

Lemma valid_format_inv wf :
  valid_format wf = true ->
  getnchannels wf = 1 /\ getsampwidth wf = 2 /\
  (getframerate wf = 8000 \/ getframerate wf = 16000).
Proof.
  unfold valid_format, bad_format.
  destruct (getnchannels wf =? 1) eqn:Hc, (getsampwidth wf =? 2) eqn:Hs,
    (getframerate wf =? 8000) eqn:H8, (getframerate wf =? 16000) eqn:H16;
    cbn; try done; lia.
Qed.

(** A validated stream is read 8000 bytes at a time. *)
Lemma read_size_valid wf :
  valid_format wf = true -> read_size wf = Z.to_nat 8000.
Proof.
  intros (Hc & Hs & _)%valid_format_inv. unfold read_size. by rewrite Hc, Hs.
Qed.

Lemma read_size_pos wf : valid_format wf = true -> (0 < read_size wf)%nat.
Proof. intros ->%read_size_valid. lia. Qed.

(** From the reading loop on: either the recognizer fails on a chunk, and
    the exception leaves the function at once, or the stream is read to its
    end, the handle is closed, and the results are saved and shown. *)
Lemma recognize_and_save_spec m wf oj ot w :
  valid_format wf = true ->
  exists evs,
    match engine_run (KaldiRecognizer m (getframerate wf))
            (chunks (read_size wf) (unread wf)) with
    | None =>
        recognize_and_save m wf oj ot w =
          (Raise (EngineError "Failed to process waveform"), add_events evs w) /\
        forallb loop_event evs = true
    | Some (res, r') =>
        recognize_and_save m wf oj ot w =
          (save_results (res ++ [fst (FinalResult r')]) oj ot ;;
           print_step "Transcription result:" LIGHTBLUE_EX ;;
           show_texts (res ++ [fst (FinalResult r')])) (add_events evs w) /\
        actions evs =
          map (EvReadFrames chunk_size) (chunks (read_size wf) (unread wf) ++ [[]])
          ++ [EvWaveClose]
    end.
Proof.
  intros Hv. unfold recognize_and_save.
  match goal with |- context [feed ?f ?tf ?st] =>
    destruct (feed_inv f tf st w) as (evs & Hevs & Hrun) end.
  { by apply read_size_pos. }
  { cbn. lia. }
  cbn [st_wf st_recognizer st_results st_frames_processed st_task] in Hrun.
  destruct (engine_run _ _) as [[res r']|].
  - destruct Hrun as (st' & Hfeed & Hact & Hres & Hrec & _).
    cbn [app] in Hres.
    exists (evs ++ [EvPrint LIGHTRED_EX (step_line "Closing audio file...");
                    EvWaveClose;
                    EvPrint GREEN (step_line "✅ Audio file closed successfully.");
                    EvPrint LIGHTGREEN_EX (step_line "Saving transcription results...")]).
    split.
    + unfold bind at 1. rewrite Hfeed. unfold wave_close. run.
      rewrite Hres, Hrec, !add_events_log, !add_events_add. done.
    + rewrite actions_app, Hact. done.
  - exists evs. unfold bind at 1. by rewrite Hrun.
Qed.

End Pipeline.

Section Tail.
Context {V : Vosk} {R : Rich}.

(** Saving and showing together (lines 122 to 143): the function ends
    normally, or with the [TypeError] of a [text] value that is not a
    string; the disk is as [save_results] left it. *)
Lemma save_and_show rs oj ot w :
  exists o w' evs w1,
    (save_results rs oj ot ;;
     print_step "Transcription result:" LIGHTBLUE_EX ;;
     show_texts rs) w = (o, w') /\
    trace w' = trace w ++ evs /\ stdin w' = stdin w /\
    forallb (fun e => is_console e || is_open_w oj e || is_open_w ot e) evs = true /\
    (o = Ret tt \/ exists msg, o = Raise (TypeError msg)) /\
    save_results rs oj ot w = (Ret tt, w1) /\ fs w' = fs w1.
Proof.
  destruct (save_results_total rs oj ot w) as (w1 & evs1 & Hsave & Htr & Hin & Hall).
  unfold bind at 1. rewrite Hsave. run.
  destruct (show_texts_spec rs (log (EvPrint LIGHTBLUE_EX (step_line "Transcription result:")) w1))
    as (o & evs2 & Hshow & Hcons & Ho).
  fold (step_line "Transcription result:"). rewrite Hshow.
  exists o, (add_events evs2 (log (EvPrint LIGHTBLUE_EX (step_line "Transcription result:")) w1)),
    (evs1 ++ EvPrint LIGHTBLUE_EX (step_line "Transcription result:") :: evs2), w1.
  split; [done |]. split; [cbn; rewrite Htr, <- !app_assoc; done |].
  split; [done |]. split.
  { apply forallb_app_true; [done |]. cbn.
    eapply forallb_weaken; [| exact Hcons]. intros e ->. done. }
  split; [| done].
  destruct o as [[]|[]| |]; try done; eauto.
Qed.

End Tail.

Section Whole.
Context {V : Vosk} {R : Rich}.

(** The whole function on a file the [wave] module parses, with the model
    in place. *)
Lemma transcribe_audio_wave mp af oj ot w n m h :
  fs w !! mp = Some n -> Model mp = Some m ->
  fs w !! af = Some (File (Wave h)) ->
  let wf := {| header := h; unread := pcm h |} in
  let cs := chunks (read_size wf) (pcm h) in
  exists o w' pre post,
    transcribe_audio mp af oj ot w = (o, w') /\
    trace w' = trace w ++ pre ++ post /\ stdin w' = stdin w /\
    if valid_format wf then
      match engine_run (KaldiRecognizer m (framerate h)) cs with
      | Some (res, r') =>
          actions pre =
            EvWaveOpen af :: map (EvReadFrames chunk_size) (cs ++ [[]])
            ++ [EvWaveClose] /\
          forallb (fun e => is_console e || is_open_w oj e || is_open_w ot e) post
            = true /\
          (o = Ret tt \/ exists msg, o = Raise (TypeError msg)) /\
          exists w1,
            save_results (res ++ [fst (FinalResult r')]) oj ot
              (add_events pre w) = (Ret tt, w1) /\
            fs w' = fs w1
      | None =>
          o = Raise (EngineError "Failed to process waveform") /\
          fs w' = fs w /\
          actions pre = [EvWaveOpen af] /\ forallb loop_event post = true
      end
    else
      o = Exit 1 /\ fs w' = fs w /\ actions pre = [EvWaveOpen af] /\ post = [].
Proof.
  intros Hm HM Ha wf cs.
  destruct (transcribe_audio_checks mp af oj ot w) as [evs0 H].
  rewrite Hm, HM, Ha in H. cbn zeta in H. fold wf in H.
  destruct H as [Hact Hrun].
  destruct (valid_format wf) eqn:Hv.
  2: { exists (Exit 1), (add_events evs0 w), evs0, [].
       rewrite app_nil_r. done. }
  rewrite Hrun.
  destruct (recognize_and_save_spec m wf oj ot (add_events evs0 w) Hv) as [evs1 H1].
  change (getframerate wf) with (framerate h) in H1.
  change (unread wf) with (pcm h) in H1. fold cs in H1.
  destruct (engine_run _ cs) as [[res r']|].
  - destruct H1 as [Hrs Hact1]. rewrite Hrs, add_events_add.
    destruct (save_and_show (res ++ [fst (FinalResult r')]) oj ot
                (add_events (evs0 ++ evs1) w))
      as (o & w' & evs2 & w1 & Hrun2 & Htr & Hin & Hall & Ho & Hsave & Hfs).
    exists o, w', (evs0 ++ evs1), evs2. rewrite Hrun2.
    split; [done |].
    split; [rewrite Htr; cbn [trace add_events]; symmetry; apply app_assoc |].
    split; [done |]. split; [by rewrite actions_app, Hact, Hact1 |].
    split; [done |]. split; [done |]. by exists w1.
  - destruct H1 as [Hrs Hloop]. rewrite Hrs, add_events_add.
    exists (Raise (EngineError "Failed to process waveform")),
      (add_events (evs0 ++ evs1) w), evs0, evs1. done.
Qed.

End Whole.

(** ** The fuel is enough *)

Section Termination.
Context {V : Vosk} {R : Rich}.

(** [transcribe_audio] gives its loop one unit of fuel more than the stream
    has bytes, and never runs out. *)
Lemma transcribe_audio_terminates mp af oj ot w :
  fst (transcribe_audio mp af oj ot w) <> Timeout.
Proof.
  destruct (transcribe_audio_checks mp af oj ot w) as [evs H].
  destruct (fs w !! mp) as [n|] eqn:Hm; [| by destruct H as [-> _]].
  destruct (Model mp) as [m|] eqn:HM; [| by destruct H as [-> _]].
  destruct (fs w !! af) as [[|[s|h|doc]]|] eqn:Ha;
    try by destruct H as [-> _].
  clear H.
  destruct (transcribe_audio_wave mp af oj ot w n m h Hm HM Ha)
    as (o & w' & pre & post & -> & _ & _ & H).
  destruct (valid_format _).
  - destruct (engine_run _ _) as [[res r']|].
    + by destruct H as (_ & _ & [-> | [msg ->]] & _).
    + by destruct H as (-> & _).
  - by destruct H as (-> & _).
Qed.

(** The prompt loop reads one line per turn, so one unit of fuel more than
    there are lines is enough. *)
Lemma prompt_loop_terminates fuel w :
  (length (stdin w) < fuel)%nat -> fst (prompt_loop fuel w) <> Timeout.
Proof.
  revert w. induction fuel as [|fuel IH]; intros w Hfuel; [lia |].
  cbn [prompt_loop]. unfold input. run.
  destruct (stdin w) as [|l rest] eqn:Hin; run; [done |].
  destruct (bool_decide _); run; [done |].
  apply IH. cbn. simpl in Hfuel. lia.
Qed.

Lemma main_terminates w : fst (main w) <> Timeout.
Proof.
  unfold main. unfold bind at 1.
  pose proof (prompt_loop_terminates (S (length (stdin w))) w) as Hloop.
  destruct (prompt_loop _ w) as [[audio_file|e|c|] w1]; cbn in Hloop |- *;
    try done; [| exfalso; apply Hloop; [lia | done]].
  unfold bind at 1.
  pose proof (transcribe_audio_terminates model_path audio_file "output.json"
                "output.txt" w1) as Hrun.
  destruct (transcribe_audio _ _ _ _ w1) as [[[]|e|c|] w2]; cbn in Hrun |- *;
    try done.
  unfold input. run. by destruct (stdin w2).
Qed.

End Termination.

(** * The properties of the specification *)

Section Writer.
Context {V : Vosk} {R : Rich}.

Lemma texts_selected written ls :
  texts written = map JStr ls ->
  exists sel, sel `sublist_of` written /\
    Forall2 (fun (l : string) (r : gmap string jval) => r !! "text" = Some (JStr l))
      ls sel.
Proof.
  revert ls. induction written as [|r written IH]; intros ls Htx.
  - destruct ls; [|done]. exists []. split; constructor.
  - cbn [texts] in Htx. destruct (r !! "text") as [v|] eqn:Hv.
    + destruct ls as [|l ls]; [done |]. cbn [map] in Htx.
      injection Htx as -> Htx. destruct (IH ls Htx) as (sel & Hsub & Hall).
      exists (r :: sel). split; [by constructor | by constructor].
    + destruct (IH ls Htx) as (sel & Hsub & Hall).
      exists sel. split; [by constructor | done].
Qed.

(** C1, as amended.  The two writes share one [try] block, the JSON file
    first.  When the JSON file cannot be opened, the failure is reported, the
    text file is not attempted and nothing is written; when the text file
    cannot be opened, the JSON file has been written already and the failure
    is reported.  In every case the block ends normally, so the run goes
    on. *)
Theorem save_results_one_guard rs pj pt w :
  pj <> pt ->
  exists w' evs, save_results rs pj pt w = (Ret tt, w') /\
    trace w' = trace w ++ evs /\
    count (is_open_w pj) evs = 1%nat /\
    if writable (fs w) pj then
      fs w' !! pj = Some (File (JsonDump rs)) /\
      count (is_open_w pt) evs = 1%nat /\
      (if writable (fs w) pt then True
       else last evs = Some (save_error_line (IsADirectoryError pt)))
    else
      fs w' = fs w /\
      count (is_open_w pt) evs = 0%nat /\
      last evs = Some (save_error_line (IsADirectoryError pj)).
Proof.
  intros Hne.
  destruct (save_results_spec rs pj pt w Hne) as (w' & evs & Hrun & Htr & _ & H).
  exists w', evs. split; [done |]. split; [done |].
  assert (Hjt : bool_decide (pj = pt) = false) by by apply bool_decide_eq_false_2.
  assert (Htj : bool_decide (pt = pj) = false) by by apply bool_decide_eq_false_2.
  assert (Hjj : bool_decide (pj = pj) = true) by by apply bool_decide_eq_true_2.
  assert (Htt : bool_decide (pt = pt) = true) by by apply bool_decide_eq_true_2.
  destruct (writable (fs w) pj).
  - destruct (writable (fs w) pt).
    + destruct H as (written & ls & lst & _ & _ & Hfs & -> & Hlast).
      assert (Hl : is_open_w pj lst = false /\ is_open_w pt lst = false).
      { destruct (forallb text_is_str rs);
          [destruct Hlast as [_ ->] | destruct Hlast as [msg ->]]; done. }
      destruct Hl as [Hl1 Hl2].
      cbn. rewrite Hjj, Htj, Hjt, Htt, Hl1, Hl2, Hfs.
      rewrite lookup_insert_ne, lookup_insert_eq by done. done.
    + destruct H as (Hfs & ->). cbn. rewrite Hjj, Htj, Hjt, Htt, Hfs.
      rewrite lookup_insert_eq. done.
  - destruct H as (Hfs & ->). cbn. rewrite ?Hjj, ?Htj. done.
Qed.

(** C6.  When both files can be opened and every [text] value is a string,
    the text file holds one line per record that has a [text] field, in the
    order of the records: [texts] skips the records without the field, and
    [lines_file] ends each value, the empty string too, with a newline. *)
Theorem text_file_lines rs pj pt w :
  pj <> pt ->
  writable (fs w) pj = true ->
  writable (fs w) pt = true ->
  forallb text_is_str rs = true ->
  exists w' ls, save_results rs pj pt w = (Ret tt, w') /\
    texts rs = map JStr ls /\
    fs w' !! pt = Some (File (Raw (lines_file ls))).
Proof.
  intros Hne Hj Ht Hstr.
  destruct (save_results_spec rs pj pt w Hne) as (w' & evs & Hrun & _ & _ & H).
  rewrite Hj, Ht, Hstr in H.
  destruct H as (written & ls & lst & _ & Htx & Hfs & _ & -> & _).
  exists w', ls. rewrite Hfs, lookup_insert_eq. done.
Qed.

(** C7.  When both files can be opened, the lines of the text file are, in
    order, the [text] values of records of the array in the JSON file: of a
    sub-sequence [sel] of that array, each record of which has the line as
    its [text] field. *)
Theorem text_lines_match_json rs pj pt w :
  pj <> pt ->
  writable (fs w) pj = true ->
  writable (fs w) pt = true ->
  exists w' doc ls sel, save_results rs pj pt w = (Ret tt, w') /\
    fs w' !! pj = Some (File (JsonDump doc)) /\
    fs w' !! pt = Some (File (Raw (lines_file ls))) /\
    sel `sublist_of` doc /\
    Forall2 (fun (l : string) (r : gmap string jval) => r !! "text" = Some (JStr l))
      ls sel.
Proof.
  intros Hne Hj Ht.
  destruct (save_results_spec rs pj pt w Hne) as (w' & evs & Hrun & _ & _ & H).
  rewrite Hj, Ht in H.
  destruct H as (written & ls & lst & [k ->] & Htx & Hfs & _).
  destruct (texts_selected written ls Htx) as (sel & Hsub & Hall).
  exists w', (written ++ k), ls, sel. rewrite Hfs.
  rewrite lookup_insert_ne, !lookup_insert_eq by done.
  repeat split; try done. by apply sublist_inserts_r.
Qed.

End Writer.

Section Pipeline_properties.
Context {V : Vosk} {R : Rich}.

Lemma out_event_not_close oj ot e :
  is_console e || is_open_w oj e || is_open_w ot e = true -> is_close e = false.
Proof. by destruct e. Qed.

Lemma out_event_not_wave_open oj ot e :
  is_console e || is_open_w oj e || is_open_w ot e = true ->
  is_wave_open e = false.
Proof. by destruct e. Qed.

Lemma out_event_not_read oj ot e :
  is_console e || is_open_w oj e || is_open_w ot e = true -> is_read e = false.
Proof. by destruct e. Qed.

Lemma loop_event_not_close e : loop_event e = true -> is_close e = false.
Proof. by destruct e. Qed.

Lemma loop_event_not_wave_open e : loop_event e = true -> is_wave_open e = false.
Proof. by destruct e. Qed.

Lemma console_not_close e : is_console e = true -> is_close e = false.
Proof. by destruct e. Qed.

Lemma console_not_wave_open e : is_console e = true -> is_wave_open e = false.
Proof. by destruct e. Qed.

(** C2, as amended.  With the model in place and a file the [wave] module
    parses, the handle is opened once.  It is closed, exactly once, when the
    format is valid and the recognizer takes every chunk: then the function
    ends normally (or with the [TypeError] of a non-string [text], raised
    after the close).  When validation fails the function ends by [exit(1)],
    and when the recognizer fails on a chunk it ends by that exception; on
    those two paths the handle is not closed. *)
Theorem wave_handle_closed_after_full_read mp af oj ot w n m h :
  fs w !! mp = Some n -> Model mp = Some m ->
  fs w !! af = Some (File (Wave h)) ->
  let wf := {| header := h; unread := pcm h |} in
  exists o w' evs,
    transcribe_audio mp af oj ot w = (o, w') /\
    trace w' = trace w ++ evs /\
    count is_wave_open evs = 1%nat /\
    if valid_format wf then
      if engine_accepts (KaldiRecognizer m (framerate h))
           (chunks (read_size wf) (pcm h))
      then count is_close evs = 1%nat /\
           (o = Ret tt \/ exists msg, o = Raise (TypeError msg))
      else count is_close evs = 0%nat /\
           o = Raise (EngineError "Failed to process waveform")
    else count is_close evs = 0%nat /\ o = Exit 1.
Proof.
  intros Hm HM Ha wf.
  destruct (transcribe_audio_wave mp af oj ot w n m h Hm HM Ha)
    as (o & w' & pre & post & Hrun & Htr & _ & H).
  fold wf in H. exists o, w', (pre ++ post).
  split; [done |]. split; [done |]. rewrite !count_app.
  rewrite <- (count_actions is_wave_open pre) by apply console_not_wave_open.
  rewrite <- (count_actions is_close pre) by apply console_not_close.
  unfold engine_accepts.
  destruct (valid_format wf).
  - destruct (engine_run _ _) as [[res r']|].
    + destruct H as (-> & Hpost & Ho & _).
      rewrite (count_none _ is_wave_open post (out_event_not_wave_open oj ot) Hpost).
      rewrite (count_none _ is_close post (out_event_not_close oj ot) Hpost).
      cbn [count is_wave_open is_close]. rewrite !count_app, !count_map_reads by done.
      done.
    + destruct H as (-> & _ & -> & Hpost).
      rewrite (count_none _ is_wave_open post loop_event_not_wave_open Hpost).
      rewrite (count_none _ is_close post loop_event_not_close Hpost).
      done.
  - destruct H as (-> & _ & -> & ->). done.
Qed.

(** C4.  On a valid stream that the recognizer takes to its end, the
    records saved are the intermediate results followed by exactly one final
    result, asked of the recognizer in the state it has after the last chunk
    and the empty read that ends the stream; when the two output paths can be
    opened, both files exist afterwards.  For a stream of zero frames there
    is no intermediate result, and the JSON file holds the final result
    alone. *)
Theorem final_result_appended_once mp af oj ot w n m h res r' :
  fs w !! mp = Some n -> Model mp = Some m ->
  fs w !! af = Some (File (Wave h)) ->
  let wf := {| header := h; unread := pcm h |} in
  valid_format wf = true ->
  engine_run (KaldiRecognizer m (framerate h)) (chunks (read_size wf) (pcm h))
    = Some (res, r') ->
  oj <> ot -> writable (fs w) oj = true -> writable (fs w) ot = true ->
  exists o w' evs text,
    transcribe_audio mp af oj ot w = (o, w') /\
    trace w' = trace w ++ evs /\
    reads evs = chunks (read_size wf) (pcm h) ++ [[]] /\
    fs w' !! oj = Some (File (JsonDump (res ++ [fst (FinalResult r')]))) /\
    fs w' !! ot = Some (File (Raw text)) /\
    match pcm h with
    | [] => res = [] /\ r' = KaldiRecognizer m (framerate h)
    | _ :: _ => True
    end.
Proof.
  intros Hm HM Ha wf Hv Hrun Hne Hj Ht.
  destruct (transcribe_audio_wave mp af oj ot w n m h Hm HM Ha)
    as (o & w' & pre & post & Hrun' & Htr & _ & H).
  fold wf in H. rewrite Hv, Hrun in H.
  destruct H as (Hpre & Hpost & _ & w1 & Hsave & Hfs).
  destruct (save_results_spec (res ++ [fst (FinalResult r')]) oj ot
              (add_events pre w) Hne) as (w1' & evs1 & Hsave' & _ & _ & H).
  rewrite Hsave in Hsave'. injection Hsave' as <-.
  cbn [fs add_events] in H. rewrite Hj, Ht in H.
  destruct H as (written & ls & lst & _ & _ & Hfs1 & _).
  exists o, w', (pre ++ post), (lines_file ls).
  split; [done |]. split; [done |]. split.
  { rewrite reads_app, <- (reads_actions pre), Hpre.
    rewrite (reads_none _ post (out_event_not_read oj ot) Hpost).
    cbn [reads]. rewrite reads_app, reads_map, app_nil_r. cbn [reads].
    by rewrite app_nil_r. }
  rewrite Hfs, Hfs1.
  rewrite lookup_insert_ne, !lookup_insert_eq by done.
  split; [done |]. split; [done |].
  destruct (pcm h); [| done].
  rewrite chunks_nil in Hrun. cbn in Hrun. by injection Hrun as <- <-.
Qed.

(** C5.  A file whose channel count is not 1, or whose sample width is not
    2 bytes, or whose rate is neither 8000 nor 16000 Hz, is rejected: the
    process ends with status 1, no read of the stream has happened, and the
    disk is as it was. *)
Theorem invalid_format_rejected mp af oj ot w h :
  fs w !! af = Some (File (Wave h)) ->
  nchannels h <> 1 \/ sampwidth h <> 2 \/
    (framerate h <> 8000 /\ framerate h <> 16000) ->
  exists o w' evs,
    transcribe_audio mp af oj ot w = (o, w') /\
    trace w' = trace w ++ evs /\
    exit_status o = Some 1 /\
    reads evs = [] /\
    fs w' = fs w.
Proof.
  intros Ha Hbad.
  assert (Hv : valid_format {| header := h; unread := pcm h |} = false).
  { unfold valid_format, bad_format, getnchannels, getsampwidth, getframerate.
    cbn [header].
    destruct (nchannels h =? 1) eqn:Hc, (sampwidth h =? 2) eqn:Hs,
      (framerate h =? 8000) eqn:H8, (framerate h =? 16000) eqn:H16;
      cbn; try done; lia. }
  destruct (transcribe_audio_checks mp af oj ot w) as [evs H].
  rewrite Ha in H. cbn zeta in H. rewrite Hv in H.
  destruct (fs w !! mp) as [n|]; [destruct (Model mp) as [m|] |].
  - destruct H as [Hact ->]. exists (Exit 1), (add_events evs w), evs.
    repeat split; try done. by rewrite <- reads_actions, Hact.
  - destruct H as [-> Hact]. eexists (Raise _), (add_events evs w), evs.
    repeat split; try done. by rewrite <- reads_actions, Hact.
  - destruct H as [-> Hact]. exists (Exit 1), (add_events evs w), evs.
    repeat split; try done. by rewrite <- reads_actions, Hact.
Qed.

End Pipeline_properties.

Section Feeder_properties.
Context {V : Vosk} {R : Rich}.

(** C3, as amended.  [readframes(4000)] asks for 4000 frames, which are
    8000 bytes of a validated (mono, 16-bit) stream.  When the recognizer
    takes every chunk, the reads of the loop are the chunks [cs] followed by
    the empty read that ends it; put end to end the chunks are the stream,
    byte for byte; each chunk has 8000 bytes, except that the last one may
    be shorter (and is not empty). *)
Theorem feed_reads_whole_stream tf st w :
  valid_format (st_wf st) = true ->
  engine_accepts (st_recognizer st)
    (chunks (Z.to_nat 8000) (unread (st_wf st))) = true ->
  exists st' w' evs cs,
    feed (S (length (unread (st_wf st)))) tf st w = (Ret st', w') /\
    trace w' = trace w ++ evs /\
    reads evs = cs ++ [[]] /\
    concat cs = unread (st_wf st) /\
    forall i c, cs !! i = Some c ->
      0 < len c <= 8000 /\ ((S i < length cs)%nat -> len c = 8000).
Proof.
  intros Hv Hacc. unfold engine_accepts in Hacc.
  destruct (feed_inv (S (length (unread (st_wf st)))) tf st w)
    as (evs & _ & H); [by apply read_size_pos | lia |].
  rewrite (read_size_valid _ Hv) in H.
  destruct (engine_run _ _) as [[res r']|]; [| done].
  destruct H as (st' & Hrun & Hact & _).
  exists st', (add_events evs w), evs, (chunks (Z.to_nat 8000) (unread (st_wf st))).
  split; [done |]. split; [done |]. split.
  { by rewrite <- reads_actions, Hact, reads_map. }
  split; [apply concat_chunks; lia |].
  intros i c Hc.
  destruct (chunks_sizes (Z.to_nat 8000) (unread (st_wf st)) i c) as [H1 H2];
    [lia | done |].
  unfold len. split; [lia |]. intros Hi. specialize (H2 Hi). lia.
Qed.

(** C9, as amended.  The counter shown as "Frames Processed" adds up the
    byte lengths of the chunks: on every validated stream that the
    recognizer takes to its end, the values it shows are the byte counts
    reached after each chunk, and it ends at the byte length of the data.
    The progress task, whose total is the number of frames, has been
    advanced by as many bytes.  The final value is twice the number of
    frames when, and only when, the data are that many whole frames. *)
Theorem frames_processed_is_byte_length m wf w :
  valid_format wf = true ->
  engine_accepts (KaldiRecognizer m (getframerate wf))
    (chunks (Z.to_nat 8000) (unread wf)) = true ->
  exists st' w' evs,
    feed (S (length (unread wf))) (getnframes wf)
      {| st_wf := wf; st_recognizer := KaldiRecognizer m (getframerate wf);
         st_results := []; st_frames_processed := 0;
         st_task := add_task (getnframes wf) |} w = (Ret st', w') /\
    trace w' = trace w ++ evs /\
    shown evs = running 0 (chunks (Z.to_nat 8000) (unread wf)) /\
    st_frames_processed st' = len (unread wf) /\
    total (st_task st') = getnframes wf /\
    completed (st_task st') = len (unread wf) /\
    (st_frames_processed st' = 2 * getnframes wf <->
     len (unread wf) = 2 * getnframes wf) /\
    (completed (st_task st') = 2 * total (st_task st') <->
     len (unread wf) = 2 * getnframes wf).
Proof.
  intros Hv Hacc. unfold engine_accepts in Hacc.
  match goal with |- context [feed ?f ?tf ?st] =>
    destruct (feed_inv f tf st w) as (evs & _ & H) end;
    [by apply read_size_pos | cbn; lia |].
  cbn [st_wf st_recognizer st_results st_frames_processed st_task] in H.
  rewrite (read_size_valid _ Hv) in H.
  destruct (engine_run _ _) as [[res r']|]; [| done].
  destruct H as (st' & Hrun & _ & _ & _ & Hfp & Hc & Ht & _ & _ & Hsh).
  exists st', (add_events evs w), evs. cbn in Hc, Ht.
  repeat split; try done; lia.
Qed.

(** C8.  When the task has no speed, or no time remaining, to report, the
    table shows zero in its place. *)
Theorem undefined_rate_shows_zero fp tf t :
  (speed t = None ->
   In ("Processing Speed", Rate 0%Q) (table_rows fp tf t)) /\
  (time_remaining t = None ->
   In ("Time Remaining", Seconds 0%Q) (table_rows fp tf t)).
Proof.
  unfold table_rows. split; intros ->; cbn; tauto.
Qed.

End Feeder_properties.

Section Prompt_properties.
Context {V : Vosk} {R : Rich}.

Lemma console_not_input e : is_console e = true -> is_input e = false.
Proof. by destruct e. Qed.

(** The prompt loop on lines [bad] that name nothing, followed by a line
    [p] that names something. *)
Lemma prompt_loop_spec fuel bad p rest w :
  stdin w = bad ++ p :: rest ->
  (length bad < fuel)%nat ->
  forallb (fun l => missing (fs w) (strip l)) bad = true ->
  missing (fs w) (strip p) = false ->
  exists evs,
    prompt_loop fuel w = (Ret (strip p), set_stdin rest (add_events evs w)) /\
    count is_input evs = S (length bad).
Proof.
  revert fuel w. induction bad as [|l bad IH]; intros fuel w Hin Hfuel Hbad Hp;
    (destruct fuel as [|fuel]; [simpl in Hfuel; lia |]);
    cbn [prompt_loop]; unfold input; run; rewrite Hin; cbn [app]; run.
  - unfold missing in Hp. destruct (fs w !! strip p) eqn:Hl; [| done].
    rewrite bool_decide_eq_true_2 by eauto.
    eexists [_]. rewrite add_events_log. done.
  - cbn [forallb] in Hbad. apply andb_prop in Hbad as [Hl Hbad].
    unfold missing in Hl. destruct (fs w !! strip l) eqn:Hl'; [done |].
    rewrite bool_decide_eq_false_2 by (by intros [? ?]).
    match goal with |- context [prompt_loop fuel ?w1] =>
      destruct (IH fuel w1) as (evs & Hrun & Hcount) end;
      try done; [simpl in Hfuel; lia |].
    rewrite Hrun. eexists (_ :: _ :: evs). split.
    + unfold set_stdin, add_events, log. cbn. rewrite <- !app_assoc. done.
    + cbn. by rewrite Hcount.
Qed.

(** C10.  The prompt asks again only for a line that names nothing on the
    disk.  When a line names something that exists but is not a waveform
    file in the right format (a directory, another file, a wrong format),
    the prompt accepts it, the rest of standard input is left unread, and
    the process ends with status 1. *)
Theorem existing_unusable_path_exits bad p rest w n :
  stdin w = bad ++ p :: rest ->
  forallb (fun l => missing (fs w) (strip l)) bad = true ->
  fs w !! strip p = Some n ->
  usable_audio n = false ->
  exists o w' evs,
    main w = (o, w') /\
    trace w' = trace w ++ evs /\
    exit_status o = Some 1 /\
    stdin w' = rest /\
    count is_input evs = S (length bad) /\
    fs w' = fs w.
Proof.
  intros Hin Hbad Hp Hn. unfold main.
  destruct (prompt_loop_spec (S (length (stdin w))) bad p rest w)
    as (evs0 & Hloop & Hcount); try done.
  { rewrite Hin, length_app. lia. }
  { unfold missing. by rewrite Hp. }
  unfold bind at 1. rewrite Hloop. cbn zeta. unfold bind at 1.
  set (w1 := set_stdin rest (add_events evs0 w)).
  destruct (transcribe_audio_checks model_path (strip p) "output.json"
              "output.txt" w1) as [evs1 H].
  change (fs w1) with (fs w) in H. rewrite Hp in H.
  assert (Hres : exists o, exit_status o = Some 1 /\
            transcribe_audio model_path (strip p) "output.json" "output.txt" w1
              = (o, add_events evs1 w1) /\
            (o = Exit 1 \/ exists e, o = Raise e) /\
            count is_input evs1 = O).
  { destruct (fs w !! model_path); [destruct (Model model_path) |].
    - destruct n as [|[s|h|doc]]; cbn in Hn; cbn zeta in H; rewrite ?Hn in H.
      3: destruct H as [Hact H].
      1, 2, 4: destruct H as [H Hact].
      all: exists (Exit 1); rewrite H;
           rewrite <- (count_actions is_input evs1) by apply console_not_input;
           rewrite Hact; eauto.
    - destruct H as [H Hact].
      exists (Raise (EngineError "Failed to create a model")). rewrite H.
      rewrite <- (count_actions is_input evs1) by apply console_not_input.
      rewrite Hact. repeat split; eauto.
    - destruct H as [H Hact]. exists (Exit 1). rewrite H.
      rewrite <- (count_actions is_input evs1) by apply console_not_input.
      rewrite Hact. eauto. }
  destruct Hres as (o & Hstatus & Hrun & Ho & Hcount1). rewrite Hrun.
  destruct Ho as [-> | [e ->]].
  - exists (Exit 1), (add_events evs1 w1), (evs0 ++ evs1).
    repeat split; try done.
    + cbn. by rewrite app_assoc.
    + rewrite count_app. lia.
  - exists (Raise e), (add_events evs1 w1), (evs0 ++ evs1).
    repeat split; try done.
    + cbn. by rewrite app_assoc.
    + rewrite count_app. lia.
Qed.

End Prompt_properties.

(** * More of the script *)

(** ** Lemmas for the paths the specification leaves out *)

Lemma texts_strs rs :
  forallb text_is_str rs = true -> exists ls, texts rs = map JStr ls.
Proof.
  induction rs as [|r rs IH]; [by exists [] |].
  cbn [forallb texts]. unfold text_is_str at 1.
  intros [Hr Hrs]%andb_prop. destruct (IH Hrs) as [ls Hls].
  destruct (r !! "text") as [[| | |t| |]|]; try done.
  - exists (t :: ls). cbn. by rewrite Hls.
  - by exists ls.
Qed.

Lemma texts_not_strs rs ls :
  texts rs = map JStr ls -> forallb text_is_str rs = true.
Proof.
  revert ls. induction rs as [|r rs IH]; intros ls; [done |].
  cbn [forallb texts]. unfold text_is_str at 1.
  destruct (r !! "text") as [v|]; [| apply IH].
  destruct ls as [|l ls]; [done |]. cbn [map]. intros [= -> Hls].
  by rewrite (IH ls Hls).
Qed.

Lemma add_events_nil w : add_events [] w = w.
Proof. destruct w. unfold add_events. cbn. by rewrite app_nil_r. Qed.

(** The display loop on records whose [text] values are strings. *)
Lemma show_texts_strs rs ls w :
  texts rs = map JStr ls ->
  show_texts rs w = (Ret tt, add_events (map (EvPrint LIGHTCYAN_EX) ls) w).
Proof.
  revert ls w. induction rs as [|r rs IH]; intros ls w Hls.
  - destruct ls; [| done]. cbn. by rewrite add_events_nil.
  - cbn [show_texts texts] in *. unfold bind at 1.
    destruct (r !! "text") as [v|].
    + destruct ls as [|l ls]; [done |]. cbn [map] in Hls.
      injection Hls as -> Hls. cbn [print_value print emit].
      rewrite (IH ls _ Hls), add_events_log, add_events_add. done.
    + cbn [ret]. by apply IH.
Qed.

(** The display loop stops at the first [text] value that is not a string. *)
Lemma show_texts_not_strs rs w :
  forallb text_is_str rs = false ->
  exists msg evs, show_texts rs w = (Raise (TypeError msg), add_events evs w).
Proof.
  intros Hrs.
  destruct (show_texts_spec rs w) as (o & evs & Hrun & _ & Ho).
  destruct o as [[]|[]| |]; try done; [| eauto].
  exfalso. clear Ho. revert w evs Hrun.
  induction rs as [|r rs IH]; intros w evs; [done |].
  cbn [show_texts forallb] in *. unfold bind at 1. unfold text_is_str at 1 in Hrs.
  destruct (r !! "text") as [[| | |t| |]|]; try done;
    cbn [print_value print emit ret]; cbn in Hrs.
  - destruct (show_texts_spec rs (log (EvPrint LIGHTCYAN_EX t) w))
      as (o' & evs' & Hrun' & _). rewrite Hrun'.
    intros [= -> _]. by eapply IH.
  - destruct (show_texts_spec rs w) as (o' & evs' & Hrun' & _). rewrite Hrun'.
    intros [= -> _]. by eapply IH.
Qed.

(** The text loop writes to its own file only. *)
Lemma write_texts_frame pt rs w q :
  q <> pt -> fs (snd (write_texts pt rs w)) !! q = fs w !! q.
Proof.
  intros Hq. revert w. induction rs as [|r rs IH]; intros w; [done |].
  cbn [write_texts]. unfold bind at 1.
  destruct (r !! "text") as [v|].
  - destruct v as [| | |t| |]; try done.
    cbn [str_add bind ret]. unfold file_write at 1.
    destruct (fs w !! pt) as [[|[old| |]]|];
      match goal with |- context [write_texts ?b ?l ?w1] =>
        specialize (IH w1); destruct (write_texts b l w1) as [[[]| | |] w2]
      end; cbn in IH |- *; rewrite IH; by apply lookup_insert_ne.
  - cbn [ret]. specialize (IH w).
    destruct (write_texts pt rs w) as [[[]| | |] w2]; cbn in IH |- *; done.
Qed.

Section More_lemmas.
Context {V : Vosk} {R : Rich}.

(** The save block writes to the two output paths only. *)
Lemma save_results_frame rs pj pt w q :
  q <> pj -> q <> pt -> fs (snd (save_results rs pj pt w)) !! q = fs w !! q.
Proof.
  intros Hj Ht. unfold save_results, try_except, open_w. run.
  assert (Hj' : pj <> q) by done. assert (Ht' : pt <> q) by done.
  destruct (fs w !! pj) as [[|c]|] eqn:Hpj; run; [done | ..];
    (match goal with |- context [<[?a:=?x]> (<[?a:=?y]> ?f) !! ?b] =>
       destruct (<[a:=x]> (<[a:=y]> f) !! b) as [[|c']|] end); run;
    try (cbn [snd fs log set_fs]; by rewrite !lookup_insert_ne);
    (match goal with |- context [write_texts ?b ?l ?w1] =>
       pose proof (write_texts_frame b l w1 q Ht) as Hw;
       destruct (write_texts b l w1) as [[[]|e| |] w2] end);
    cbn in Hw |- *; rewrite Hw, !lookup_insert_ne; done.
Qed.

(** A complete read: the function comes down to showing the results on
    the world the save block leaves. *)
Lemma transcribe_audio_full_read mp af oj ot w n m h res r' :
  fs w !! mp = Some n -> Model mp = Some m ->
  fs w !! af = Some (File (Wave h)) ->
  let wf := {| header := h; unread := pcm h |} in
  valid_format wf = true ->
  engine_run (KaldiRecognizer m (framerate h)) (chunks (read_size wf) (pcm h))
    = Some (res, r') ->
  exists pre w1 evs1,
    actions pre =
      EvWaveOpen af
      :: map (EvReadFrames chunk_size) (chunks (read_size wf) (pcm h) ++ [[]])
      ++ [EvWaveClose] /\
    save_results (res ++ [fst (FinalResult r')]) oj ot (add_events pre w)
      = (Ret tt, w1) /\
    trace w1 = trace w ++ pre ++ evs1 /\ stdin w1 = stdin w /\
    forallb (fun e => is_console e || is_open_w oj e || is_open_w ot e) evs1
      = true /\
    transcribe_audio mp af oj ot w =
      show_texts (res ++ [fst (FinalResult r')])
        (log (EvPrint LIGHTBLUE_EX (step_line "Transcription result:")) w1).
Proof.
  intros Hm HM Ha wf Hv Hrun.
  destruct (transcribe_audio_checks mp af oj ot w) as [evs0 H].
  rewrite Hm, HM, Ha in H. cbn zeta in H. fold wf in H. rewrite Hv in H.
  destruct H as [Hact ->].
  destruct (recognize_and_save_spec m wf oj ot (add_events evs0 w) Hv) as [evs1 H1].
  change (getframerate wf) with (framerate h) in H1.
  change (unread wf) with (pcm h) in H1. rewrite Hrun in H1.
  destruct H1 as [-> Hact1]. rewrite add_events_add.
  destruct (save_results_total (res ++ [fst (FinalResult r')]) oj ot
              (add_events (evs0 ++ evs1) w))
    as (w1 & evs2 & Hsave & Htr & Hin & Hall).
  exists (evs0 ++ evs1), w1, evs2.
  split; [by rewrite actions_app, Hact, Hact1 |]. split; [done |].
  split; [rewrite Htr; cbn [trace add_events]; symmetry; apply app_assoc |].
  split; [done |]. split; [done |].
  unfold bind at 1. rewrite Hsave. run. done.
Qed.

End More_lemmas.

(** ** The checks before the file is read *)

Section Checks.
Context {V : Vosk} {R : Rich}.

(** X1.  Without the model directory the function prints the diagnostic and
    exits with status 1 at once: the audio path is not even looked at, no
    file is opened and the disk is as it was. *)
Theorem missing_model_exits mp af oj ot w :
  fs w !! mp = None ->
  transcribe_audio mp af oj ot w =
    (Exit 1,
     add_events
       [EvPrint MAGENTA (step_line "Checking Persian model...");
        EvPrint RED (step_line ("❌ Persian model not found at " +:+ mp +:+ "!"))]
       w).
Proof.
  intros Hm. unfold transcribe_audio. run. rewrite Hm.
  rewrite bool_decide_eq_false_2 by (by intros [? ?]). run.
  by rewrite !add_events_log, !add_events_add.
Qed.

(** X2.  Called with an audio path that does not exist (the model being in
    place), the function prints "Audio file not found" and exits with
    status 1 without trying to open anything. *)
Theorem missing_audio_exits mp af oj ot w n m :
  fs w !! mp = Some n -> Model mp = Some m ->
  fs w !! af = None ->
  transcribe_audio mp af oj ot w =
    (Exit 1,
     add_events
       [EvPrint MAGENTA (step_line "Checking Persian model...");
        EvPrint BLUE (step_line "Loading Persian model...");
        EvPrint GREEN (step_line "✅ Persian model loaded successfully.");
        EvPrint CYAN (step_line "Checking audio file...");
        EvPrint RED (step_line ("❌ Audio file not found at " +:+ af +:+ "!"))]
       w).
Proof.
  intros Hm HM Ha. unfold transcribe_audio. run. rewrite Hm.
  rewrite bool_decide_eq_true_2 by eauto. run. rewrite HM. run. rewrite Ha.
  rewrite bool_decide_eq_false_2 by (by intros [? ?]). run.
  by rewrite !add_events_log, !add_events_add.
Qed.

(** X3.  An audio path that exists but that [wave.open] cannot parse (a
    directory, a file of another kind) is caught by the handler of lines 46
    to 48: the diagnostic carries the text of the exception and the process
    exits with status 1; no handle was opened, no read happened. *)
Theorem unreadable_audio_exits mp af oj ot w n m a :
  fs w !! mp = Some n -> Model mp = Some m ->
  fs w !! af = Some a -> is_wave a = false ->
  transcribe_audio mp af oj ot w =
    (Exit 1,
     add_events
       [EvPrint MAGENTA (step_line "Checking Persian model...");
        EvPrint BLUE (step_line "Loading Persian model...");
        EvPrint GREEN (step_line "✅ Persian model loaded successfully.");
        EvPrint CYAN (step_line "Checking audio file...");
        EvPrint YELLOW (step_line "Opening audio file...");
        EvPrint RED (step_line ("❌ Error opening audio file: "
                                +:+ str_exn (open_error af a)))]
       w).
Proof.
  intros Hm HM Ha Hw. unfold transcribe_audio, wave_open. run. rewrite Hm.
  rewrite bool_decide_eq_true_2 by eauto. run. rewrite HM. run. rewrite Ha.
  rewrite bool_decide_eq_true_2 by eauto. run. rewrite Ha.
  destruct a as [|[s|h|doc]]; try done; run;
    by rewrite !add_events_log, !add_events_add.
Qed.

(** X4.  When the recognizer fails on a chunk, its exception leaves the
    function: the results collected so far are dropped, neither output file
    is opened, and the disk is as it was. *)
Theorem recognizer_failure_saves_nothing mp af oj ot w n m h :
  fs w !! mp = Some n -> Model mp = Some m ->
  fs w !! af = Some (File (Wave h)) ->
  let wf := {| header := h; unread := pcm h |} in
  valid_format wf = true ->
  engine_accepts (KaldiRecognizer m (framerate h))
    (chunks (read_size wf) (pcm h)) = false ->
  exists w' evs,
    transcribe_audio mp af oj ot w =
      (Raise (EngineError "Failed to process waveform"), w') /\
    trace w' = trace w ++ evs /\
    fs w' = fs w /\
    count (is_open_w oj) evs = O /\ count (is_open_w ot) evs = O.
Proof.
  intros Hm HM Ha wf Hv Hacc. unfold engine_accepts in Hacc.
  destruct (transcribe_audio_wave mp af oj ot w n m h Hm HM Ha)
    as (o & w' & pre & post & Hrun & Htr & _ & H).
  fold wf in H. rewrite Hv in H.
  destruct (engine_run _ _) as [[res r']|]; [done |].
  destruct H as (-> & Hfs & Hpre & Hpost).
  exists w', (pre ++ post). split; [done |]. split; [done |]. split; [done |].
  rewrite !count_app.
  rewrite <- (count_actions (is_open_w oj) pre), <- (count_actions (is_open_w ot) pre)
    by (by intros []).
  rewrite Hpre.
  rewrite (count_none loop_event (is_open_w oj) post), (count_none loop_event (is_open_w ot) post)
    by (done || by intros []).
  done.
Qed.

(** X5.  Whatever its arguments and whatever happens, the function leaves
    every file other than the two output paths as it was, and reads nothing
    from standard input. *)
Theorem transcribe_audio_frame mp af oj ot w q :
  q <> oj -> q <> ot ->
  fs (snd (transcribe_audio mp af oj ot w)) !! q = fs w !! q /\
  stdin (snd (transcribe_audio mp af oj ot w)) = stdin w.
Proof.
  intros Hj Ht.
  destruct (transcribe_audio_checks mp af oj ot w) as [evs H].
  destruct (fs w !! mp) as [n|] eqn:Hm; [| by destruct H as [-> _]].
  destruct (Model mp) as [m|] eqn:HM; [| by destruct H as [-> _]].
  destruct (fs w !! af) as [[|[s|h|doc]]|] eqn:Ha;
    try by destruct H as [-> _].
  clear H.
  destruct (transcribe_audio_wave mp af oj ot w n m h Hm HM Ha)
    as (o & w' & pre & post & -> & _ & Hin & H).
  cbn [snd]. split; [| done].
  destruct (valid_format _).
  - destruct (engine_run _ _) as [[res r']|].
    + destruct H as (_ & _ & _ & w1 & Hsave & ->).
      pose proof (save_results_frame (res ++ [fst (FinalResult r')]) oj ot
                    (add_events pre w) q Hj Ht) as Hq.
      by rewrite Hsave in Hq.
    + by destruct H as (_ & -> & _).
  - by destruct H as (_ & -> & _).
Qed.

End Checks.

(** ** After the file is read *)

Lemma count_map_prints P c ls :
  (forall s, P (EvPrint c s) = false) -> count P (map (EvPrint c) ls) = O.
Proof.
  intros HP. induction ls as [|l ls IH]; simpl; [done |]. by rewrite HP, IH.
Qed.

Section Results.
Context {V : Vosk} {R : Rich}.

(** The save block when the JSON path is a directory. *)
Lemma save_results_blocked rs pj pt w :
  writable (fs w) pj = false ->
  save_results rs pj pt w =
    (Ret tt,
     add_events [EvOpenW pj; save_error_line (IsADirectoryError pj)] w).
Proof.
  unfold writable, save_results, try_except, open_w. run.
  destruct (fs w !! pj) as [[|c]|]; try done. intros _. run.
  by rewrite !add_events_log, !add_events_add.
Qed.


(** X9.  The display loop of lines 141 to 143 is outside the [try]: when a
    [text] value is not a string, the function ends with a [TypeError]
    after the JSON file has been written in full. *)
Theorem non_string_text_raises mp af oj ot w n m h res r' :
  fs w !! mp = Some n -> Model mp = Some m ->
  fs w !! af = Some (File (Wave h)) ->
  let wf := {| header := h; unread := pcm h |} in
  valid_format wf = true ->
  engine_run (KaldiRecognizer m (framerate h)) (chunks (read_size wf) (pcm h))
    = Some (res, r') ->
  oj <> ot -> writable (fs w) oj = true -> writable (fs w) ot = true ->
  forallb text_is_str (res ++ [fst (FinalResult r')]) = false ->
  exists w' msg,
    transcribe_audio mp af oj ot w = (Raise (TypeError msg), w') /\
    fs w' !! oj = Some (File (JsonDump (res ++ [fst (FinalResult r')]))).
Proof.
  intros Hm HM Ha wf Hv Hrun Hne Hj Ht Hstr.
  destruct (transcribe_audio_full_read mp af oj ot w n m h res r' Hm HM Ha Hv Hrun)
    as (pre & w1 & evs1 & _ & Hsave & _ & _ & _ & ->).
  destruct (save_results_spec (res ++ [fst (FinalResult r')]) oj ot
              (add_events pre w) Hne) as (w1' & evs1' & Hsave' & _ & _ & H).
  rewrite Hsave in Hsave'. injection Hsave' as <-.
  cbn [fs add_events] in H. rewrite Hj, Ht in H.
  destruct H as (written & ls & lst & _ & _ & Hfs & _).
  match goal with |- context [show_texts ?rs ?w0] =>
    destruct (show_texts_not_strs rs w0 Hstr) as (msg & evs & ->) end.
  eexists _, msg. split; [reflexivity |]. cbn. rewrite Hfs.
  rewrite lookup_insert_ne, lookup_insert_eq by done. done.
Qed.

(** X10.  When the JSON path cannot be opened, nothing is saved, and yet
    the function goes on to print the transcript and ends normally. *)
Theorem failed_save_ends_normally mp af oj ot w n m h res r' :
  fs w !! mp = Some n -> Model mp = Some m ->
  fs w !! af = Some (File (Wave h)) ->
  let wf := {| header := h; unread := pcm h |} in
  valid_format wf = true ->
  engine_run (KaldiRecognizer m (framerate h)) (chunks (read_size wf) (pcm h))
    = Some (res, r') ->
  writable (fs w) oj = false ->
  forallb text_is_str (res ++ [fst (FinalResult r')]) = true ->
  exists w' evs ls,
    transcribe_audio mp af oj ot w = (Ret tt, w') /\
    fs w' = fs w /\
    texts (res ++ [fst (FinalResult r')]) = map JStr ls /\
    trace w' = trace w ++ evs ++ map (EvPrint LIGHTCYAN_EX) ls.
Proof.
  intros Hm HM Ha wf Hv Hrun Hj Hstr.
  destruct (transcribe_audio_full_read mp af oj ot w n m h res r' Hm HM Ha Hv Hrun)
    as (pre & w1 & evs1 & _ & Hsave & _ & _ & _ & ->).
  rewrite save_results_blocked in Hsave by done. injection Hsave as <-.
  destruct (texts_strs _ Hstr) as [ls Htx].
  rewrite (show_texts_strs _ ls _ Htx).
  eexists _, (pre ++ [_; _; _]), ls. split; [reflexivity |].
  split; [done |]. split; [done |]. cbn. by rewrite <- !app_assoc.
Qed.

(** X12.  Given the same path for both outputs, the second [open]
    truncates what the first write left: the file ends up holding the text
    lines, and the JSON array is lost. *)
Theorem same_output_path_keeps_text rs p w :
  writable (fs w) p = true ->
  forallb text_is_str rs = true ->
  exists w' ls,
    save_results rs p p w = (Ret tt, w') /\
    texts rs = map JStr ls /\
    fs w' !! p = Some (File (Raw (lines_file ls))).
Proof.
  unfold writable. intros Hp Hstr. unfold save_results, try_except, open_w. run.
  destruct (fs w !! p) as [[|c]|] eqn:Hl; try done; run.
  all: rewrite lookup_insert_eq; run.
  all: match goal with |- context [write_texts ?b ?l ?w1] =>
         destruct (write_texts_spec b l w1 "")
           as (o & w' & written & ls & Hrun & _ & Htx & Hfs & _ & _ & Ho);
         [cbn; apply lookup_insert_eq | rewrite Hrun] end.
  all: destruct o as [[]|[]| |]; try done; try congruence.
  all: destruct Ho as [-> _]; run.
  all: eexists _, ls; split; [reflexivity |]; split; [done |].
  all: cbn; rewrite Hfs; apply lookup_insert_eq.
Qed.

End Results.

(** ** The order of the accesses *)

Lemma actions_console evs : forallb is_console evs = true -> actions evs = [].
Proof.
  induction evs as [|e evs IH]; simpl; [done |].
  intros [He Hevs]%andb_prop. rewrite He. by apply IH.
Qed.

Section Order.
Context {V : Vosk} {R : Rich}.

(** X14.  [Model(model_path)] is called outside any [try]: when the engine
    cannot load the model its exception leaves the function before the audio
    path is looked at. *)
Theorem model_load_failure_propagates mp af oj ot w n :
  fs w !! mp = Some n -> Model mp = None ->
  transcribe_audio mp af oj ot w =
    (Raise (EngineError "Failed to create a model"),
     add_events
       [EvPrint MAGENTA (step_line "Checking Persian model...");
        EvPrint BLUE (step_line "Loading Persian model...")]
       w).
Proof.
  intros Hm HM. unfold transcribe_audio. run. rewrite Hm.
  rewrite bool_decide_eq_true_2 by eauto. run. rewrite HM. run.
  by rewrite !add_events_log, !add_events_add.
Qed.

(** X15.  On a complete read with two writable output paths, the accesses
    come in this order: the audio file is opened, read chunk by chunk up to
    the empty read, and closed; only then is the JSON file opened, and after
    it the text file. *)
Theorem complete_run_order mp af oj ot w n m h res r' :
  fs w !! mp = Some n -> Model mp = Some m ->
  fs w !! af = Some (File (Wave h)) ->
  let wf := {| header := h; unread := pcm h |} in
  valid_format wf = true ->
  engine_run (KaldiRecognizer m (framerate h)) (chunks (read_size wf) (pcm h))
    = Some (res, r') ->
  oj <> ot -> writable (fs w) oj = true -> writable (fs w) ot = true ->
  exists o w' evs,
    transcribe_audio mp af oj ot w = (o, w') /\
    trace w' = trace w ++ evs /\
    actions evs =
      EvWaveOpen af
      :: map (EvReadFrames chunk_size) (chunks (read_size wf) (pcm h) ++ [[]])
      ++ [EvWaveClose; EvOpenW oj; EvOpenW ot].
Proof.
  intros Hm HM Ha wf Hv Hrun Hne Hj Ht.
  destruct (transcribe_audio_full_read mp af oj ot w n m h res r' Hm HM Ha Hv Hrun)
    as (pre & w1 & evs1 & Hpre & Hsave & Htr & _ & _ & ->).
  destruct (save_results_spec (res ++ [fst (FinalResult r')]) oj ot
              (add_events pre w) Hne) as (w1' & evs1' & Hsave' & Htr' & _ & H).
  rewrite Hsave in Hsave'. injection Hsave' as <-.
  cbn [fs add_events trace] in H, Htr'. rewrite Hj, Ht in H.
  destruct H as (written & ls & lst & _ & _ & _ & -> & Hlast).
  assert (Hl : is_console lst = true).
  { destruct (forallb text_is_str _);
      [destruct Hlast as [_ ->] | destruct Hlast as [msg ->]]; done. }
  match goal with |- context [show_texts ?rs ?w0] =>
    destruct (show_texts_spec rs w0) as (o & evs & -> & Hcons & _) end.
  eexists o, _, ((pre ++ [EvOpenW oj; saved_line oj; EvOpenW ot; lst])
                 ++ EvPrint LIGHTBLUE_EX (step_line "Transcription result:")
                    :: evs).
  split; [reflexivity |]. split.
  { cbn. rewrite Htr', <- !app_assoc. done. }
  rewrite !actions_app, Hpre. cbn [actions is_console saved_line].
  rewrite Hl, (actions_console evs Hcons), app_nil_r.
  cbn [app]. by rewrite <- app_assoc.
Qed.

End Order.

(** ** The module body *)

Section Module_body.
Context {V : Vosk} {R : Rich}.

Lemma out_event_not_input oj ot e :
  is_console e || is_open_w oj e || is_open_w ot e = true -> is_input e = false.
Proof. by destruct e. Qed.

Lemma prompt_event_not_wave_open e :
  is_console e || is_input e = true -> is_wave_open e = false.
Proof. by destruct e. Qed.

(** The prompt loop when no line names anything: it reads every line, asks
    once more and meets the end of the input. *)
Lemma prompt_loop_eof fuel w :
  forallb (fun l => missing (fs w) (strip l)) (stdin w) = true ->
  (length (stdin w) < fuel)%nat ->
  exists evs,
    prompt_loop fuel w = (Raise EOFError, set_stdin [] (add_events evs w)) /\
    count is_input evs = S (length (stdin w)) /\
    forallb (fun e => is_console e || is_input e) evs = true.
Proof.
  remember (stdin w) as lines eqn:Hin. revert fuel w Hin.
  induction lines as [|l lines IH]; intros fuel w Hin Hbad Hfuel;
    (destruct fuel as [|fuel]; [simpl in Hfuel; lia |]);
    cbn [prompt_loop]; unfold input; run; rewrite <- Hin; run.
  - exists [EvInput "Please enter the path to your audio file: "].
    rewrite add_events_log. unfold set_stdin, add_events. cbn. by rewrite <- Hin.
  - cbn [forallb] in Hbad. apply andb_prop in Hbad as [Hl Hbad].
    unfold missing in Hl. destruct (fs w !! strip l) eqn:Hl'; [done |].
    rewrite bool_decide_eq_false_2 by (by intros [? ?]).
    match goal with |- context [prompt_loop fuel ?w1] =>
      destruct (IH fuel w1) as (evs & Hrun & Hcount & Hall) end;
      try done; [simpl in Hfuel; lia |].
    rewrite Hrun. eexists (_ :: _ :: evs). split; [| split].
    + unfold set_stdin, add_events, log. cbn. rewrite <- !app_assoc. done.
    + cbn. by rewrite Hcount.
    + cbn. done.
Qed.

(** The prompt loop up to the first line that names something: only the
    console and standard input are used. *)
Lemma prompt_loop_accepts fuel bad p rest w :
  stdin w = bad ++ p :: rest ->
  (length bad < fuel)%nat ->
  forallb (fun l => missing (fs w) (strip l)) bad = true ->
  missing (fs w) (strip p) = false ->
  exists evs,
    prompt_loop fuel w = (Ret (strip p), set_stdin rest (add_events evs w)) /\
    count is_input evs = S (length bad) /\
    forallb (fun e => is_console e || is_input e) evs = true.
Proof.
  revert fuel w. induction bad as [|l bad IH]; intros fuel w Hin Hfuel Hbad Hp;
    (destruct fuel as [|fuel]; [simpl in Hfuel; lia |]);
    cbn [prompt_loop]; unfold input; run; rewrite Hin; cbn [app]; run.
  - unfold missing in Hp. destruct (fs w !! strip p) eqn:Hl; [| done].
    rewrite bool_decide_eq_true_2 by eauto.
    eexists [_]. rewrite add_events_log. done.
  - cbn [forallb] in Hbad. apply andb_prop in Hbad as [Hl Hbad].
    unfold missing in Hl. destruct (fs w !! strip l) eqn:Hl'; [done |].
    rewrite bool_decide_eq_false_2 by (by intros [? ?]).
    match goal with |- context [prompt_loop fuel ?w1] =>
      destruct (IH fuel w1) as (evs & Hrun & Hcount & Hall) end;
      try done; [simpl in Hfuel; lia |].
    rewrite Hrun. eexists (_ :: _ :: evs). split; [| split].
    + unfold set_stdin, add_events, log. cbn. rewrite <- !app_assoc. done.
    + cbn. by rewrite Hcount.
    + cbn. done.
Qed.

(** The prompt loop ends by a path or by an exception, not by [exit]. *)
Lemma prompt_loop_outcome fuel w :
  (length (stdin w) < fuel)%nat ->
  match fst (prompt_loop fuel w) with
  | Ret _ | Raise _ => True
  | _ => False
  end.
Proof.
  revert w. induction fuel as [|fuel IH]; intros w Hfuel; [lia |].
  cbn [prompt_loop]. unfold input. run.
  destruct (stdin w) as [|l rest] eqn:Hin; run; [done |].
  destruct (bool_decide _); run; [done |].
  apply IH. cbn. simpl in Hfuel. lia.
Qed.

(** [exit] is always called with 1. *)
Lemma transcribe_audio_exit mp af oj ot w c :
  fst (transcribe_audio mp af oj ot w) = Exit c -> c = 1.
Proof.
  destruct (transcribe_audio_checks mp af oj ot w) as [evs H].
  destruct (fs w !! mp) as [n|] eqn:Hm;
    [| destruct H as [-> _]; cbn; congruence].
  destruct (Model mp) as [m|] eqn:HM; [| by destruct H as [-> _]].
  destruct (fs w !! af) as [[|[s|h|doc]]|] eqn:Ha;
    try (destruct H as [-> _]; cbn; congruence).
  clear H.
  destruct (transcribe_audio_wave mp af oj ot w n m h Hm HM Ha)
    as (o & w' & pre & post & -> & _ & _ & H).
  cbn [fst]. destruct (valid_format _).
  - destruct (engine_run _ _) as [[res r']|].
    + by destruct H as (_ & _ & [-> | [msg ->]] & _).
    + by destruct H as (-> & _).
  - destruct H as (-> & _). congruence.
Qed.

(** X6.  After a complete transcription the script waits for Enter.  With
    one more line on standard input it reads exactly that line and ends
    normally; with standard input exhausted the last [input] raises
    [EOFError], so the process ends with status 1 although the transcription
    went through.  The prompt was asked once per line that names nothing,
    once for the audio path and once at the end. *)
Theorem complete_run_waits_for_enter bad p rest w n m h res r' :
  stdin w = bad ++ p :: rest ->
  forallb (fun l => missing (fs w) (strip l)) bad = true ->
  fs w !! model_path = Some n -> Model model_path = Some m ->
  fs w !! strip p = Some (File (Wave h)) ->
  let wf := {| header := h; unread := pcm h |} in
  valid_format wf = true ->
  engine_run (KaldiRecognizer m (framerate h)) (chunks (read_size wf) (pcm h))
    = Some (res, r') ->
  forallb text_is_str (res ++ [fst (FinalResult r')]) = true ->
  exists o w' evs,
    main w = (o, w') /\
    trace w' = trace w ++ evs /\
    count is_input evs = (length bad + 2)%nat /\
    count is_wave_open evs = 1%nat /\
    match rest with
    | [] => o = Raise EOFError /\ stdin w' = []
    | _ :: rest' => o = Ret tt /\ stdin w' = rest'
    end.
Proof.
  intros Hin Hbad Hm HM Hp wf Hv Hrun Hstr. unfold main.
  destruct (prompt_loop_accepts (S (length (stdin w))) bad p rest w)
    as (evs0 & Hloop & Hcount & Hall0); try done.
  { rewrite Hin, length_app. lia. }
  { unfold missing. by rewrite Hp. }
  unfold bind at 1. rewrite Hloop. cbn zeta. unfold bind at 1.
  set (w1 := set_stdin rest (add_events evs0 w)).
  destruct (transcribe_audio_full_read model_path (strip p) "output.json"
              "output.txt" w1 n m h res r' Hm HM Hp Hv Hrun)
    as (pre & w2 & evs1 & Hpre & _ & Htr & Hin2 & Hall & ->).
  destruct (texts_strs _ Hstr) as [ls Htx].
  rewrite (show_texts_strs _ ls _ Htx).
  set (line := EvPrint LIGHTBLUE_EX (step_line "Transcription result:")).
  set (w3 := add_events (map (EvPrint LIGHTCYAN_EX) ls) (log line w2)).
  set (tail := evs0 ++ pre ++ evs1 ++ line :: map (EvPrint LIGHTCYAN_EX) ls).
  assert (Htr3 : trace w3 = trace w ++ tail).
  { unfold w3, tail. cbn. rewrite Htr. cbn. rewrite <- !app_assoc. done. }
  assert (Hin3 : stdin w3 = rest) by (unfold w3; cbn; by rewrite Hin2).
  assert (Hcount_tail : count is_input tail = S (length bad) /\
                        count is_wave_open tail = 1%nat).
  { unfold tail, line. rewrite !count_app. cbn [count is_input is_wave_open].
    rewrite !count_map_prints by done.
    rewrite (count_none _ is_input evs1 (out_event_not_input _ _) Hall).
    rewrite (count_none _ is_wave_open evs1 (out_event_not_wave_open _ _) Hall).
    rewrite (count_none _ is_wave_open evs0 prompt_event_not_wave_open Hall0).
    rewrite <- (count_actions is_input pre), <- (count_actions is_wave_open pre)
      by (by intros []).
    rewrite Hpre. cbn [count is_input is_wave_open].
    rewrite !count_app, !count_map_reads by done. cbn. lia. }
  destruct Hcount_tail as [Hci Hco].
  clearbody w3 tail. unfold input. run. rewrite Hin3.
  destruct rest as [|l rest']; run.
  - eexists _, _, (tail ++ [_]). split; [reflexivity |].
    split; [cbn [trace log]; by rewrite Htr3, <- app_assoc |].
    rewrite !count_app, Hci, Hco. cbn. repeat split; try done; lia.
  - eexists _, _, (tail ++ [_]). split; [reflexivity |].
    split; [cbn [trace log set_stdin]; by rewrite Htr3, <- app_assoc |].
    rewrite !count_app, Hci, Hco. cbn. repeat split; try done; lia.
Qed.

(** X7.  When no line of standard input names an existing path, the
    script asks once per line and once more, then ends with the [EOFError]
    of the last [input]: nothing but the console and standard input was
    touched. *)
Theorem prompt_gives_up_at_eof w :
  forallb (fun l => missing (fs w) (strip l)) (stdin w) = true ->
  exists w' evs,
    main w = (Raise EOFError, w') /\
    trace w' = trace w ++ evs /\
    count is_input evs = S (length (stdin w)) /\
    forallb (fun e => is_console e || is_input e) evs = true /\
    stdin w' = [] /\ fs w' = fs w.
Proof.
  intros Hbad. unfold main.
  destruct (prompt_loop_eof (S (length (stdin w))) w Hbad)
    as (evs & Hloop & Hcount & Hall); [lia |].
  unfold bind at 1. rewrite Hloop.
  by exists (set_stdin [] (add_events evs w)), evs.
Qed.

(** X11.  Whatever the disk and the input, the script ends, and with status
    0 or 1. *)
Theorem main_status_0_or_1 w :
  exit_status (fst (main w)) = Some 0 \/ exit_status (fst (main w)) = Some 1.
Proof.
  destruct (main w) as [o w'] eqn:Hmain. cbn [fst].
  unfold main in Hmain. unfold bind at 1 in Hmain.
  pose proof (prompt_loop_outcome (S (length (stdin w))) w) as Hloop.
  destruct (prompt_loop _ w) as [[audio_file|e|c|] w1]; cbn [fst] in Hloop;
    try (exfalso; apply Hloop; lia);
    [| injection Hmain as <- _; by right].
  unfold bind at 1 in Hmain.
  pose proof (transcribe_audio_terminates model_path audio_file "output.json"
                "output.txt" w1) as Hrun.
  pose proof (transcribe_audio_exit model_path audio_file "output.json"
                "output.txt" w1) as Hexit.
  destruct (transcribe_audio _ _ _ _ w1) as [[[]|e|c|] w2];
    cbn [fst] in Hrun, Hexit; try done.
  - unfold input in Hmain. run_in Hmain.
    destruct (stdin w2); injection Hmain as <- _; [by right | by left].
  - injection Hmain as <- _. by right.
  - injection Hmain as <- _. right. cbn. by rewrite (Hexit c).
Qed.

End Module_body.

(** ** The display *)

Lemma length_running acc cs : length (running acc cs) = length cs.
Proof.
  revert acc. induction cs as [|c cs IH]; intros acc; simpl; [done |].
  by rewrite IH.
Qed.

(** The number of chunks is the length divided by the chunk size, rounded
    up. *)
Lemma length_chunks {A} k (l : list A) :
  (0 < k)%nat ->
  Z.of_nat (length (chunks k l)) =
  (Z.of_nat (length l) + Z.of_nat k - 1) / Z.of_nat k.
Proof.
  intros Hk.
  remember (length l) as n eqn:Hn.
  revert l Hn. induction n as [n IH] using lt_wf_ind. intros l Hn.
  destruct l as [|a l].
  - simpl in Hn. subst n. rewrite chunks_nil. simpl length.
    symmetry. apply Z.div_small. lia.
  - rewrite chunks_cons by done. cbn [length].
    assert (Hd : length (drop k (a :: l)) = (n - k)%nat).
    { rewrite length_drop. by subst n. }
    rewrite Nat2Z.inj_succ, (IH (n - k)%nat) by (simpl in Hn; lia || done).
    simpl in Hn.
    destruct (decide (n <= k)%nat) as [Hle | Hgt].
    + replace (n - k)%nat with O by lia.
      rewrite (Z.div_small (Z.of_nat 0 + Z.of_nat k - 1)) by lia.
      assert (E : (Z.of_nat n + Z.of_nat k - 1) / Z.of_nat k = 1)
        by (symmetry; apply (Z.div_unique _ _ 1 (Z.of_nat n - 1)); lia).
      lia.
    + replace (Z.of_nat n + Z.of_nat k - 1)
        with ((Z.of_nat (n - k) + Z.of_nat k - 1) + 1 * Z.of_nat k) by lia.
      rewrite Z.div_add by lia. lia.
Qed.

Section Display.
Context {V : Vosk} {R : Rich}.

(** X13.  On a validated stream that the recognizer takes to its end, the
    table is updated once per chunk, that is the byte length divided by 8000
    and rounded up; the stream is read once more than that, the last read
    being the empty one, which updates nothing. *)
Theorem display_updated_once_per_chunk tf st w :
  valid_format (st_wf st) = true ->
  engine_accepts (st_recognizer st)
    (chunks (Z.to_nat 8000) (unread (st_wf st))) = true ->
  exists st' w' evs,
    feed (S (length (unread (st_wf st)))) tf st w = (Ret st', w') /\
    trace w' = trace w ++ evs /\
    Z.of_nat (length (shown evs)) = (len (unread (st_wf st)) + 7999) / 8000 /\
    Z.of_nat (length (reads evs)) = (len (unread (st_wf st)) + 7999) / 8000 + 1.
Proof.
  intros Hv Hacc. unfold engine_accepts in Hacc.
  destruct (feed_inv (S (length (unread (st_wf st)))) tf st w)
    as (evs & _ & H); [by apply read_size_pos | lia |].
  rewrite (read_size_valid _ Hv) in H.
  destruct (engine_run _ _) as [[res r']|]; [| done].
  destruct H as (st' & Hrun & Hact & _ & _ & _ & _ & _ & _ & _ & Hsh).
  exists st', (add_events evs w), evs.
  split; [done |]. split; [done |].
  rewrite Hsh, length_running, <- reads_actions, Hact, reads_map, length_app.
  rewrite Nat2Z.inj_add, length_chunks by lia.
  rewrite Z2Nat.id by lia. unfold len. cbn [length].
  replace (Z.of_nat (length (unread (st_wf st))) + 8000 - 1)
    with (Z.of_nat (length (unread (st_wf st))) + 7999) by lia.
  split; [done | lia].
Qed.

End Display.

(** * The properties on concrete runs *)

Example strip_path : strip "  short.wav  " = "short.wav".
Proof. reflexivity. Qed.

Example strip_inner_space : strip " my file.wav" = "my file.wav".
Proof. reflexivity. Qed.

Example lines_of_records :
  texts Runs.records = [JStr "salam"; JStr ""] /\
  lines_file ["salam"; ""] = "salam" +:+ nl +:+ nl.
Proof. split; reflexivity. Qed.

(** Three frames of silence: the display reaches 6, the byte count. *)
Example short_file_shows_bytes :
  shown (trace (snd (@feed Demo.vosk Demo.rich 7 3
                       (Runs.fresh (Runs.opened Runs.short_wav))
                       (Demo.start ∅ [])))) = [6].
Proof. vm_compute. reflexivity. Qed.

(** C1, as stated, fails: with [output.json] a directory the JSON write
    fails, and the text file is then neither opened nor created. *)
Lemma json_failure_skips_text :
  let w' := snd (save_results Runs.records "output.json" "output.txt"
                   (Demo.start Runs.blocked_json [])) in
  count (is_open_w "output.json") (trace w') = 1%nat /\
  fs w' !! "output.json" = Some Dir /\
  count (is_open_w "output.txt") (trace w') = 0%nat /\
  fs w' !! "output.txt" = None.
Proof. vm_compute. repeat split; reflexivity. Qed.

Lemma save_results_one_guard_witness :
  let w := Demo.start Runs.blocked_txt [] in
  "output.json" <> "output.txt" /\
  exists w' evs,
    save_results Runs.records "output.json" "output.txt" w = (Ret tt, w') /\
    trace w' = trace w ++ evs /\
    count (is_open_w "output.json") evs = 1%nat /\
    fs w' !! "output.json" = Some (File (JsonDump Runs.records)) /\
    count (is_open_w "output.txt") evs = 1%nat /\
    last evs = Some (save_error_line (IsADirectoryError "output.txt")).
Proof.
  cbv zeta. split; [discriminate |].
  refine (save_results_one_guard Runs.records "output.json" "output.txt"
            (Demo.start Runs.blocked_txt []) _).
  discriminate.
Defined.

(** C2, as stated, fails: a stereo file is opened, validation fails, and the
    process exits with the handle never closed. *)
Lemma stereo_file_left_open :
  let w := Demo.start Demo.disk [] in
  let r := @transcribe_audio Demo.vosk Demo.rich model_path "stereo.wav"
             "output.json" "output.txt" w in
  fst r = Exit 1 /\
  count is_wave_open (trace (snd r)) = 1%nat /\
  count is_close (trace (snd r)) = 0%nat.
Proof. vm_compute. repeat split; reflexivity. Qed.

Lemma wave_handle_closed_after_full_read_witness :
  let w := Demo.start Demo.disk [] in
  let h := Demo.stereo16 16000 (Demo.silence 8) in
  fs w !! model_path = Some Dir /\
  @Model Demo.vosk model_path = Some tt /\
  fs w !! "stereo.wav" = Some (File (Wave h)) /\
  exists o w' evs,
    @transcribe_audio Demo.vosk Demo.rich model_path "stereo.wav"
      "output.json" "output.txt" w = (o, w') /\
    trace w' = trace w ++ evs /\
    count is_wave_open evs = 1%nat /\
    count is_close evs = 0%nat /\ o = Exit 1.
Proof.
  cbv zeta. split; [reflexivity |]. split; [reflexivity |].
  split; [reflexivity |].
  exact (@wave_handle_closed_after_full_read Demo.vosk Demo.rich model_path
           "stereo.wav" "output.json" "output.txt" (Demo.start Demo.disk [])
           Dir tt (Demo.stereo16 16000 (Demo.silence 8))
           eq_refl eq_refl eq_refl).
Defined.

(** C3, as stated, fails: a stream of 8000 bytes (4000 frames) is read in
    one chunk of 8000 bytes, not in two of 4000. *)
Lemma one_read_takes_8000_bytes :
  let st := Runs.fresh (Runs.opened Runs.long_wav) in
  let w' := snd (@feed Demo.vosk Demo.rich (S (length (pcm Runs.long_wav)))
                   4000 st (Demo.start ∅ [])) in
  valid_format (st_wf st) = true /\
  reads (trace w') = [pcm Runs.long_wav; []] /\
  len (pcm Runs.long_wav) = 8000 /\
  ~ Forall (fun c => len c <= 4000) (reads (trace w')).
Proof.
  cbv zeta. split; [reflexivity |].
  assert (H : reads (trace (snd (@feed Demo.vosk Demo.rich
                (S (length (pcm Runs.long_wav))) 4000
                (Runs.fresh (Runs.opened Runs.long_wav)) (Demo.start ∅ []))))
              = [pcm Runs.long_wav; []]) by (vm_compute; reflexivity).
  split; [exact H |]. split; [vm_compute; reflexivity |].
  rewrite H. intros Hall. apply Forall_cons in Hall as [Hc _].
  revert Hc. vm_compute. intros Hc. apply Hc. reflexivity.
Qed.

Lemma feed_reads_whole_stream_witness :
  let st := Runs.fresh (Runs.opened Runs.short_wav) in
  let w := Demo.start ∅ [] in
  valid_format (st_wf st) = true /\
  engine_accepts (st_recognizer st)
    (chunks (Z.to_nat 8000) (unread (st_wf st))) = true /\
  exists st' w' evs cs,
    @feed Demo.vosk Demo.rich (S (length (unread (st_wf st)))) 3 st w
      = (Ret st', w') /\
    trace w' = trace w ++ evs /\
    reads evs = cs ++ [[]] /\
    concat cs = unread (st_wf st) /\
    forall i c, cs !! i = Some c ->
      0 < len c <= 8000 /\ ((S i < length cs)%nat -> len c = 8000).
Proof.
  cbv zeta. split; [reflexivity |]. split; [vm_compute; reflexivity |].
  exact (@feed_reads_whole_stream Demo.vosk Demo.rich 3
           (Runs.fresh (Runs.opened Runs.short_wav)) (Demo.start ∅ [])
           eq_refl eq_refl).
Defined.

Lemma final_result_appended_once_witness :
  let w := Demo.start Demo.disk [] in
  let h := Demo.mono16 16000 [] in
  fs w !! model_path = Some Dir /\
  @Model Demo.vosk model_path = Some tt /\
  fs w !! "empty.wav" = Some (File (Wave h)) /\
  valid_format (Runs.opened h) = true /\
  @engine_run Demo.vosk (@KaldiRecognizer Demo.vosk tt 16000)
    (chunks (read_size (Runs.opened h)) []) = Some ([], O) /\
  "output.json" <> "output.txt" /\
  writable (fs w) "output.json" = true /\
  writable (fs w) "output.txt" = true /\
  exists o w' evs text,
    @transcribe_audio Demo.vosk Demo.rich model_path "empty.wav"
      "output.json" "output.txt" w = (o, w') /\
    trace w' = trace w ++ evs /\
    reads evs = [[]] /\
    fs w' !! "output.json" = Some (File (JsonDump [Demo.final])) /\
    fs w' !! "output.txt" = Some (File (Raw text)) /\
    @nil (gmap string jval) = [] /\ O = O.
Proof.
  cbv zeta. repeat (split; [first [reflexivity | discriminate] |]).
  exact (@final_result_appended_once Demo.vosk Demo.rich model_path
           "empty.wav" "output.json" "output.txt" (Demo.start Demo.disk [])
           Dir tt (Demo.mono16 16000 []) [] O
           eq_refl eq_refl eq_refl eq_refl eq_refl
           ltac:(discriminate) eq_refl eq_refl).
Defined.

Lemma invalid_format_rejected_witness :
  let w := Demo.start Demo.disk [] in
  let h := Demo.stereo16 16000 (Demo.silence 8) in
  fs w !! "stereo.wav" = Some (File (Wave h)) /\
  (nchannels h <> 1 \/ sampwidth h <> 2 \/
   (framerate h <> 8000 /\ framerate h <> 16000)) /\
  exists o w' evs,
    @transcribe_audio Demo.vosk Demo.rich model_path "stereo.wav"
      "output.json" "output.txt" w = (o, w') /\
    trace w' = trace w ++ evs /\
    exit_status o = Some 1 /\
    reads evs = [] /\
    fs w' = fs w.
Proof.
  cbv zeta. split; [reflexivity |].
  assert (H : nchannels (Demo.stereo16 16000 (Demo.silence 8)) <> 1 \/
              sampwidth (Demo.stereo16 16000 (Demo.silence 8)) <> 2 \/
              (framerate (Demo.stereo16 16000 (Demo.silence 8)) <> 8000 /\
               framerate (Demo.stereo16 16000 (Demo.silence 8)) <> 16000))
    by (left; simpl; lia).
  split; [exact H |].
  exact (@invalid_format_rejected Demo.vosk Demo.rich model_path "stereo.wav"
           "output.json" "output.txt" (Demo.start Demo.disk [])
           (Demo.stereo16 16000 (Demo.silence 8)) eq_refl H).
Defined.

Lemma text_file_lines_witness :
  let w := Demo.start Demo.disk [] in
  "output.json" <> "output.txt" /\
  writable (fs w) "output.json" = true /\
  writable (fs w) "output.txt" = true /\
  forallb text_is_str Runs.records = true /\
  exists w' ls,
    save_results Runs.records "output.json" "output.txt" w = (Ret tt, w') /\
    texts Runs.records = map JStr ls /\
    fs w' !! "output.txt" = Some (File (Raw (lines_file ls))).
Proof.
  cbv zeta. repeat (split; [first [reflexivity | discriminate] |]).
  exact (text_file_lines Runs.records "output.json" "output.txt"
           (Demo.start Demo.disk []) ltac:(discriminate)
           eq_refl eq_refl eq_refl).
Defined.

Lemma text_lines_match_json_witness :
  let w := Demo.start Demo.disk [] in
  "output.json" <> "output.txt" /\
  writable (fs w) "output.json" = true /\
  writable (fs w) "output.txt" = true /\
  exists w' doc ls sel,
    save_results Runs.records "output.json" "output.txt" w = (Ret tt, w') /\
    fs w' !! "output.json" = Some (File (JsonDump doc)) /\
    fs w' !! "output.txt" = Some (File (Raw (lines_file ls))) /\
    sel `sublist_of` doc /\
    Forall2 (fun (l : string) (r : gmap string jval) => r !! "text" = Some (JStr l))
      ls sel.
Proof.
  cbv zeta. repeat (split; [first [reflexivity | discriminate] |]).
  exact (text_lines_match_json Runs.records "output.json" "output.txt"
           (Demo.start Demo.disk []) ltac:(discriminate) eq_refl eq_refl).
Defined.

Lemma undefined_rate_shows_zero_witness :
  let t := {| total := 3; completed := 6; updates := 1 |} in
  @speed Demo.rich t = None /\
  @time_remaining Demo.rich t = None /\
  In ("Processing Speed", Rate 0%Q) (@table_rows Demo.rich 6 3 t) /\
  In ("Time Remaining", Seconds 0%Q) (@table_rows Demo.rich 6 3 t).
Proof.
  cbv zeta. split; [reflexivity |]. split; [reflexivity |].
  split.
  - exact (proj1 (@undefined_rate_shows_zero Demo.rich 6 3
                    {| total := 3; completed := 6; updates := 1 |}) eq_refl).
  - exact (proj2 (@undefined_rate_shows_zero Demo.rich 6 3
                    {| total := 3; completed := 6; updates := 1 |}) eq_refl).
Defined.

(** C9, as stated, fails: a mono 16-bit file whose data chunk has three
    bytes passes validation with one frame, and the counter ends at 3, not
    at 2. *)
Lemma odd_stream_counts_three :
  let wf := Runs.opened Runs.odd_wav in
  valid_format wf = true /\
  getnframes wf = 1 /\
  match fst (@feed Demo.vosk Demo.rich (S (length (unread wf))) (getnframes wf)
               (Runs.fresh wf) (Demo.start ∅ [])) with
  | Ret st' => st_frames_processed st' = 3 /\
               st_frames_processed st' <> 2 * getnframes wf
  | _ => False
  end.
Proof. vm_compute. repeat split; discriminate. Qed.

Lemma frames_processed_is_byte_length_witness :
  let wf := Runs.opened Runs.odd_wav in
  let w := Demo.start ∅ [] in
  valid_format wf = true /\
  engine_accepts (@KaldiRecognizer Demo.vosk tt (getframerate wf))
    (chunks (Z.to_nat 8000) (unread wf)) = true /\
  exists st' w' evs,
    @feed Demo.vosk Demo.rich (S (length (unread wf))) (getnframes wf)
      (Runs.fresh wf) w = (Ret st', w') /\
    trace w' = trace w ++ evs /\
    shown evs = running 0 (chunks (Z.to_nat 8000) (unread wf)) /\
    st_frames_processed st' = len (unread wf) /\
    total (st_task st') = getnframes wf /\
    completed (st_task st') = len (unread wf) /\
    (st_frames_processed st' = 2 * getnframes wf <->
     len (unread wf) = 2 * getnframes wf) /\
    (completed (st_task st') = 2 * total (st_task st') <->
     len (unread wf) = 2 * getnframes wf).
Proof.
  cbv zeta. split; [reflexivity |]. split; [vm_compute; reflexivity |].
  exact (@frames_processed_is_byte_length Demo.vosk Demo.rich tt
           (Runs.opened Runs.odd_wav) (Demo.start ∅ [])
           eq_refl eq_refl).
Defined.

Lemma existing_unusable_path_exits_witness :
  let w := Demo.start Demo.disk ["nothing"; "  music  "; "short.wav"] in
  stdin w = ["nothing"] ++ "  music  " :: ["short.wav"] /\
  forallb (fun l => missing (fs w) (strip l)) ["nothing"] = true /\
  fs w !! strip "  music  " = Some Dir /\
  usable_audio Dir = false /\
  exists o w' evs,
    @main Demo.vosk Demo.rich w = (o, w') /\
    trace w' = trace w ++ evs /\
    exit_status o = Some 1 /\
    stdin w' = ["short.wav"] /\
    count is_input evs = 2%nat /\
    fs w' = fs w.
Proof.
  cbv zeta. repeat (split; [reflexivity |]).
  exact (@existing_unusable_path_exits Demo.vosk Demo.rich ["nothing"]
           "  music  " ["short.wav"]
           (Demo.start Demo.disk ["nothing"; "  music  "; "short.wav"]) Dir
           eq_refl eq_refl eq_refl eq_refl).
Defined.

(** ** Runs for the further properties *)

Lemma missing_model_exits_witness :
  let w := Demo.start Runs.no_model [] in
  fs w !! model_path = None /\
  fst (@transcribe_audio Demo.vosk Demo.rich model_path "short.wav"
         "output.json" "output.txt" w) = Exit 1.
Proof.
  cbv zeta. split; [reflexivity |].
  rewrite (@missing_model_exits Demo.vosk Demo.rich model_path "short.wav"
             "output.json" "output.txt" (Demo.start Runs.no_model []) eq_refl).
  reflexivity.
Defined.

Lemma missing_audio_exits_witness :
  let w := Demo.start Demo.disk [] in
  fs w !! "absent.wav" = None /\
  fst (@transcribe_audio Demo.vosk Demo.rich model_path "absent.wav"
         "output.json" "output.txt" w) = Exit 1.
Proof.
  cbv zeta. split; [reflexivity |].
  rewrite (@missing_audio_exits Demo.vosk Demo.rich model_path "absent.wav"
             "output.json" "output.txt" (Demo.start Demo.disk []) Dir tt
             eq_refl eq_refl eq_refl).
  reflexivity.
Defined.

Lemma unreadable_audio_exits_witness :
  let w := Demo.start Demo.disk [] in
  fs w !! "notes.txt" = Some (File (Raw "hello")) /\
  is_wave (File (Raw "hello")) = false /\
  fst (@transcribe_audio Demo.vosk Demo.rich model_path "notes.txt"
         "output.json" "output.txt" w) = Exit 1.
Proof.
  cbv zeta. split; [reflexivity |]. split; [reflexivity |].
  rewrite (@unreadable_audio_exits Demo.vosk Demo.rich model_path "notes.txt"
             "output.json" "output.txt" (Demo.start Demo.disk []) Dir tt
             (File (Raw "hello")) eq_refl eq_refl eq_refl eq_refl).
  reflexivity.
Defined.

Lemma recognizer_failure_saves_nothing_witness :
  let w := Demo.start Runs.noisy_disk [] in
  let wf := Runs.opened Runs.noisy_wav in
  valid_format wf = true /\
  @engine_accepts Demo.vosk (@KaldiRecognizer Demo.vosk tt 16000)
    (chunks (read_size wf) (pcm Runs.noisy_wav)) = false /\
  exists w' evs,
    @transcribe_audio Demo.vosk Demo.rich model_path "noisy.wav"
      "output.json" "output.txt" w =
      (Raise (EngineError "Failed to process waveform"), w') /\
    trace w' = trace w ++ evs /\
    fs w' = fs w /\
    count (is_open_w "output.json") evs = O /\
    count (is_open_w "output.txt") evs = O.
Proof.
  cbv zeta. split; [reflexivity |]. split; [vm_compute; reflexivity |].
  exact (@recognizer_failure_saves_nothing Demo.vosk Demo.rich model_path
           "noisy.wav" "output.json" "output.txt"
           (Demo.start Runs.noisy_disk []) Dir tt Runs.noisy_wav
           eq_refl eq_refl eq_refl eq_refl eq_refl).
Defined.

Lemma transcribe_audio_frame_witness :
  let w := Demo.start Demo.disk ["left"] in
  let w' := snd (@transcribe_audio Demo.vosk Demo.rich model_path "short.wav"
                   "output.json" "output.txt" w) in
  "notes.txt" <> "output.json" /\ "notes.txt" <> "output.txt" /\
  fs w' !! "notes.txt" = fs w !! "notes.txt" /\ stdin w' = stdin w.
Proof.
  cbv zeta. split; [discriminate |]. split; [discriminate |].
  exact (@transcribe_audio_frame Demo.vosk Demo.rich model_path "short.wav"
           "output.json" "output.txt" (Demo.start Demo.disk ["left"])
           "notes.txt" ltac:(discriminate) ltac:(discriminate)).
Defined.

Lemma complete_run_waits_for_enter_witness :
  let w := Demo.start Demo.disk ["nothing"; " short.wav "; ""; "left"] in
  stdin w = ["nothing"] ++ " short.wav " :: [""; "left"] /\
  fs w !! strip " short.wav " = Some (File (Wave Runs.short_wav)) /\
  exists o w' evs,
    @main Demo.vosk Demo.rich w = (o, w') /\
    trace w' = trace w ++ evs /\
    count is_input evs = 3%nat /\
    count is_wave_open evs = 1%nat /\
    o = Ret tt /\ stdin w' = ["left"].
Proof.
  cbv zeta. split; [reflexivity |]. split; [reflexivity |].
  exact (@complete_run_waits_for_enter Demo.vosk Demo.rich ["nothing"]
           " short.wav " [""; "left"]
           (Demo.start Demo.disk ["nothing"; " short.wav "; ""; "left"])
           Dir tt Runs.short_wav [] 1%nat
           eq_refl eq_refl eq_refl eq_refl eq_refl eq_refl eq_refl eq_refl).
Defined.

Lemma prompt_gives_up_at_eof_witness :
  let w := Demo.start Demo.disk ["nothing"; "nowhere"] in
  forallb (fun l => missing (fs w) (strip l)) (stdin w) = true /\
  exists w' evs,
    @main Demo.vosk Demo.rich w = (Raise EOFError, w') /\
    trace w' = trace w ++ evs /\
    count is_input evs = 3%nat /\
    forallb (fun e => is_console e || is_input e) evs = true /\
    stdin w' = [] /\ fs w' = fs w.
Proof.
  cbv zeta. split; [reflexivity |].
  exact (@prompt_gives_up_at_eof Demo.vosk Demo.rich
           (Demo.start Demo.disk ["nothing"; "nowhere"]) eq_refl).
Defined.


Lemma non_string_text_raises_witness :
  let w := Demo.start Demo.disk [] in
  forallb text_is_str [Runs.odd_final] = false /\
  exists w' msg,
    @transcribe_audio Runs.odd_vosk Demo.rich model_path "short.wav"
      "output.json" "output.txt" w = (Raise (TypeError msg), w') /\
    fs w' !! "output.json" = Some (File (JsonDump [Runs.odd_final])).
Proof.
  cbv zeta. split; [reflexivity |].
  exact (@non_string_text_raises Runs.odd_vosk Demo.rich model_path "short.wav"
           "output.json" "output.txt" (Demo.start Demo.disk [])
           Dir tt Runs.short_wav [] 1%nat
           eq_refl eq_refl eq_refl eq_refl eq_refl ltac:(discriminate)
           eq_refl eq_refl eq_refl).
Defined.

Lemma failed_save_ends_normally_witness :
  let w := Demo.start Runs.blocked_json [] in
  writable (fs w) "output.json" = false /\
  exists w' evs ls,
    @transcribe_audio Demo.vosk Demo.rich model_path "short.wav"
      "output.json" "output.txt" w = (Ret tt, w') /\
    fs w' = fs w /\
    texts [Demo.final] = map JStr ls /\
    trace w' = trace w ++ evs ++ map (EvPrint LIGHTCYAN_EX) ls.
Proof.
  cbv zeta. split; [reflexivity |].
  exact (@failed_save_ends_normally Demo.vosk Demo.rich model_path "short.wav"
           "output.json" "output.txt" (Demo.start Runs.blocked_json [])
           Dir tt Runs.short_wav [] 1%nat
           eq_refl eq_refl eq_refl eq_refl eq_refl eq_refl eq_refl).
Defined.

Lemma same_output_path_keeps_text_witness :
  let w := Demo.start Demo.disk [] in
  writable (fs w) "out" = true /\
  forallb text_is_str Runs.records = true /\
  exists w' ls,
    save_results Runs.records "out" "out" w = (Ret tt, w') /\
    texts Runs.records = map JStr ls /\
    fs w' !! "out" = Some (File (Raw (lines_file ls))).
Proof.
  cbv zeta. split; [reflexivity |]. split; [reflexivity |].
  exact (same_output_path_keeps_text Runs.records "out"
           (Demo.start Demo.disk []) eq_refl eq_refl).
Defined.

Lemma display_updated_once_per_chunk_witness :
  let st := Runs.fresh (Runs.opened Runs.short_wav) in
  let w := Demo.start ∅ [] in
  valid_format (st_wf st) = true /\
  engine_accepts (st_recognizer st)
    (chunks (Z.to_nat 8000) (unread (st_wf st))) = true /\
  exists st' w' evs,
    @feed Demo.vosk Demo.rich (S (length (unread (st_wf st)))) 3 st w
      = (Ret st', w') /\
    trace w' = trace w ++ evs /\
    Z.of_nat (length (shown evs)) = (len (unread (st_wf st)) + 7999) / 8000 /\
    Z.of_nat (length (reads evs)) = (len (unread (st_wf st)) + 7999) / 8000 + 1.
Proof.
  cbv zeta. split; [reflexivity |]. split; [vm_compute; reflexivity |].
  exact (@display_updated_once_per_chunk Demo.vosk Demo.rich 3
           (Runs.fresh (Runs.opened Runs.short_wav)) (Demo.start ∅ [])
           eq_refl eq_refl).
Defined.

Lemma model_load_failure_propagates_witness :
  let w := Demo.start Demo.disk [] in
  fs w !! model_path = Some Dir /\
  @Model Runs.refusing_vosk model_path = None /\
  fst (@transcribe_audio Runs.refusing_vosk Demo.rich model_path "short.wav"
         "output.json" "output.txt" w)
  = Raise (EngineError "Failed to create a model").
Proof.
  cbv zeta. split; [reflexivity |]. split; [reflexivity |].
  rewrite (@model_load_failure_propagates Runs.refusing_vosk Demo.rich model_path "short.wav"
             "output.json" "output.txt" (Demo.start Demo.disk []) Dir
             eq_refl eq_refl).
  reflexivity.
Defined.

Lemma complete_run_order_witness :
  let w := Demo.start Demo.disk [] in
  exists o w' evs,
    @transcribe_audio Demo.vosk Demo.rich model_path "short.wav"
      "output.json" "output.txt" w = (o, w') /\
    trace w' = trace w ++ evs /\
    actions evs =
      [EvWaveOpen "short.wav"; EvReadFrames 4000 (pcm Runs.short_wav);
       EvReadFrames 4000 []; EvWaveClose;
       EvOpenW "output.json"; EvOpenW "output.txt"].
Proof.
  cbv zeta.
  exact (@complete_run_order Demo.vosk Demo.rich model_path "short.wav"
           "output.json" "output.txt" (Demo.start Demo.disk [])
           Dir tt Runs.short_wav [] 1%nat
           eq_refl eq_refl eq_refl eq_refl eq_refl ltac:(discriminate)
           eq_refl eq_refl).
Defined.
